(** * go-latest: a shallow embedding of [main.go] and its properties

    The program lists the executables of GOBIN, reads the build information
    of each one, asks [go list] for the latest version of its module and runs
    [go install pkg@latest] for those that are behind.  One task per program
    runs in an [errgroup.Group] whose limit is the [-j] flag.

    Strings are Go strings (sequences of bytes), [int] is [Z], an [error] is
    a small tree that keeps what [Error()] and [errors.Is] observe.  Every
    collaborator outside the program (the environment, the file system, the
    [go] command, the JSON decoder, the Go runtime) is a field of the record
    [World]; the order in which goroutines are started and finish is a list
    of [Action]s. *)

From Stdlib Require Import String Ascii List ZArith Bool Lia Permutation.
Import ListNotations.
Open Scope string_scope.

(** ** Errors *)

(** [context_Canceled] is the sentinel [context.Canceled]; [errorString] is
    an error that only has a message ([errors.New], [fmt.Errorf] without
    [%w], an exit status of a command); [wrapError] is [fmt.Errorf] with one
    [%w] verb: a message and the error [Unwrap] returns. *)
Inductive error : Type :=
| context_Canceled
| errorString (s : string)
| wrapError (s : string) (e : error).

(** The method [Error()]. *)
Definition Error (e : error) : string :=
  match e with
  | context_Canceled => "context canceled"
  | errorString s => s
  | wrapError s _ => s
  end.

(** [errors.Is(err, context.Canceled)]: follows the [Unwrap] chain. *)
Fixpoint errors_Is_Canceled (e : error) : bool :=
  match e with
  | context_Canceled => true
  | errorString _ => false
  | wrapError _ e' => errors_Is_Canceled e'
  end.

Inductive result (A : Type) : Type :=
| Ok (a : A)
| Err (e : error).
Arguments Ok {A} a.
Arguments Err {A} e.

(** The line feed of the format strings. *)
Definition nl : string := String (ascii_of_nat 10) EmptyString.

(** ** golang.org/x/mod/semver (the two functions [isSpecific] calls) *)

Module semver.

Record parsed : Type := mkParsed {
  major : string;
  minor : string;
  patch : string;
  short : string;
  prerelease : string;
  build : string
}.

Definition isDigit (c : ascii) : bool :=
  (("0" <=? c) && (c <=? "9"))%char.

(** ['A' <= c && c <= 'Z' || 'a' <= c && c <= 'z' || '0' <= c && c <= '9' || c == '-'] *)
Definition isIdentChar (c : ascii) : bool :=
  ((("A" <=? c) && (c <=? "Z")) || (("a" <=? c) && (c <=? "z"))
   || (("0" <=? c) && (c <=? "9")) || (c =? "-"))%char.

(** The longest prefix of digits of [v], and what follows it. *)
Fixpoint spanDigits (v : string) : string * string :=
  match v with
  | EmptyString => (EmptyString, EmptyString)
  | String c v' =>
      if isDigit c
      then let (t, rest) := spanDigits v' in (String c t, rest)
      else (EmptyString, v)
  end.

(** [parseInt]: a non-empty run of digits without a leading zero (unless it
    is the single digit 0). *)
Definition parseInt (v : string) : option (string * string) :=
  match v with
  | EmptyString => None
  | String c _ =>
      if negb (isDigit c) then None
      else
        let (t, rest) := spanDigits v in
        if (c =? "0")%char && negb (Nat.eqb (String.length t) 1) then None
        else Some (t, rest)
  end.

(** [isBadNum]: all digits, more than one of them, the first one 0. *)
Definition isBadNum (v : string) : bool :=
  let (t, rest) := spanDigits v in
  match rest with
  | EmptyString =>
      Nat.ltb 1 (String.length t)
      && match v with String c _ => (c =? "0")%char | EmptyString => false end
  | String _ _ => false
  end.

(** The test both loops make when an identifier ends:
    [start == i || isBadNum(v[start:i])]. *)
Definition badIdent (cur : string) : bool :=
  match cur with
  | EmptyString => true
  | String _ _ => isBadNum cur
  end.

(** The loop of [parsePrerelease]: [acc] is [v[:i]], [cur] is [v[start:i]]
    and [rest] is [v[i:]]. *)
Fixpoint prereleaseLoop (acc cur rest : string) : option (string * string) :=
  match rest with
  | EmptyString => if badIdent cur then None else Some (acc, rest)
  | String c rest' =>
      if (c =? "+")%char then
        if badIdent cur then None else Some (acc, rest)
      else if negb (isIdentChar c) && negb (c =? ".")%char then None
      else if (c =? ".")%char then
        if badIdent cur then None
        else prereleaseLoop (acc ++ String c EmptyString) EmptyString rest'
      else prereleaseLoop (acc ++ String c EmptyString)
                          (cur ++ String c EmptyString) rest'
  end.

(** [len(v) > 0 && v[0] == c] *)
Definition startsWith (c : ascii) (v : string) : bool :=
  match v with
  | EmptyString => false
  | String c' _ => (c' =? c)%char
  end.

Definition parsePrerelease (v : string) : option (string * string) :=
  match v with
  | EmptyString => None
  | String c v' =>
      if negb (c =? "-")%char then None
      else prereleaseLoop (String c EmptyString) EmptyString v'
  end.

(** The loop of [parseBuild]; an identifier only has to be non-empty. *)
Fixpoint buildLoop (acc cur rest : string) : option (string * string) :=
  match rest with
  | EmptyString =>
      match cur with EmptyString => None | String _ _ => Some (acc, rest) end
  | String c rest' =>
      if negb (isIdentChar c) && negb (c =? ".")%char then None
      else if (c =? ".")%char then
        match cur with
        | EmptyString => None
        | String _ _ => buildLoop (acc ++ String c EmptyString) EmptyString rest'
        end
      else buildLoop (acc ++ String c EmptyString)
                     (cur ++ String c EmptyString) rest'
  end.

Definition parseBuild (v : string) : option (string * string) :=
  match v with
  | EmptyString => None
  | String c v' =>
      if negb (c =? "+")%char then None
      else buildLoop (String c EmptyString) EmptyString v'
  end.

(** [parse]: [None] is [ok == false]. *)
Definition parse (v : string) : option parsed :=
  match v with
  | EmptyString => None
  | String c v1 =>
    if negb (c =? "v")%char then None else
    match parseInt v1 with
    | None => None
    | Some (ma, v2) =>
      match v2 with
      | EmptyString => Some (mkParsed ma "0" "0" ".0.0" EmptyString EmptyString)
      | String c2 v3 =>
        if negb (c2 =? ".")%char then None else
        match parseInt v3 with
        | None => None
        | Some (mi, v4) =>
          match v4 with
          | EmptyString => Some (mkParsed ma mi "0" ".0" EmptyString EmptyString)
          | String c4 v5 =>
            if negb (c4 =? ".")%char then None else
            match parseInt v5 with
            | None => None
            | Some (pa, v6) =>
              match (if startsWith "-" v6 then parsePrerelease v6
                     else Some (EmptyString, v6)) with
              | None => None
              | Some (pre, v7) =>
                match (if startsWith "+" v7 then parseBuild v7
                       else Some (EmptyString, v7)) with
                | None => None
                | Some (bld, v8) =>
                  match v8 with
                  | EmptyString => Some (mkParsed ma mi pa EmptyString pre bld)
                  | String _ _ => None
                  end
                end
              end
            end
          end
        end
      end
    end
  end.

Definition IsValid (v : string) : bool :=
  match parse v with Some _ => true | None => false end.

Definition Prerelease (v : string) : string :=
  match parse v with
  | None => EmptyString
  | Some pv => prerelease pv
  end.

End semver.

(** ** The version classifier *)

(** [isSpecific]: a revision installed from a local repository or at a
    specific SHA. *)
Definition isSpecific (v : string) : bool :=
  if v =? "(devel)" then true
  else if semver.IsValid v && negb (semver.Prerelease v =? EmptyString) then true
  else false.


(** ** fmt *)

(** An operand of a formatting function: a string (or a byte slice printed
    with [%s]) or an error, printed through [Error()]. *)
Inductive arg : Type :=
| S_ (s : string)
| E_ (e : error).

Definition show (a : arg) : string :=
  match a with
  | S_ s => s
  | E_ e => Error e
  end.

(** [fmt.Sprintf] for the verbs the program uses ([%s], [%v], [%w], each
    replaced by the next operand).  A format is written as in the source:
    the two characters backslash, n stand for a line feed. *)
Fixpoint Sprintf (format : string) (args : list arg) : string :=
  match format with
  | EmptyString => EmptyString
  | String "%" (String c rest) =>
      match args with
      | a :: args' => show a ++ Sprintf rest args'
      | [] => "%!" ++ String c "(MISSING)" ++ Sprintf rest []
      end
  | String "\" (String "n" rest) => nl ++ Sprintf rest args
  | String c rest => String c (Sprintf rest args)
  end.

(** The operand of the first [%w] verb of a format, when it is an error. *)
Fixpoint wrapped (format : string) (args : list arg) : option error :=
  match format with
  | EmptyString => None
  | String "%" (String c rest) =>
      match args with
      | a :: args' =>
          if (c =? "w")%char
          then match a with E_ e => Some e | S_ _ => None end
          else wrapped rest args'
      | [] => None
      end
  | String _ rest => wrapped rest args
  end.

(** [fmt.Errorf]: the error wraps the operand of [%w] if there is one. *)
Definition Errorf (format : string) (args : list arg) : error :=
  match wrapped format args with
  | Some e => wrapError (Sprintf format args) e
  | None => errorString (Sprintf format args)
  end.

Definition errors_New (s : string) : error := errorString s.

(** ** What the program does to the outside *)

(** [Printf] and [Println] write to standard output; [Command] is one
    [exec.CommandContext(ctx, argv...).CombinedOutput()]. *)
Inductive Event : Type :=
| Printf (format : string) (args : list arg)
| Println (args : list arg)
| Command (argv : list string).

(** ** Build information ([debug.Module], [debug.BuildInfo]) *)

Module module.
Record t : Type := mk { Path : string; Version : string }.
End module.

Record BuildInfo : Type := mkBuildInfo {
  GoVersion : string;
  Path : string;
  Main : module.t
}.

(** [fs.FileInfo]: the two methods the program calls. *)
Record FileInfo : Type := mkFileInfo {
  Name : string;
  Mode : Z
}.

(** ** The collaborators *)

(** [CombinedOutput gid argv] is what the command [argv] started by
    goroutine number [gid] returns (its output and its error): the same
    command can end differently in two goroutines, for instance when the
    context is cancelled between them. *)
Record World : Type := mkWorld {
  os_Getenv : string -> string;
  filepath_Join : list string -> string;
  ioutil_ReadDir : string -> result (list FileInfo);
  buildinfo_ReadFile : string -> result BuildInfo;
  CombinedOutput : nat -> list string -> string * option error;
  json_Unmarshal : string -> result string;
  runtime_Version : string;
  runtime_NumCPU : Z;
  debug_ReadBuildInfo : option BuildInfo;
  os_MkdirTemp : result string;
  os_Chdir : string -> option error
}.

(** ** Discovery *)

Definition gobin (w : World) : string :=
  let gobin := os_Getenv w "GOBIN" in
  if negb (gobin =? EmptyString) then gobin
  else
    let home := os_Getenv w "HOME" in
    if negb (home =? EmptyString) then filepath_Join w [home; "go"; "bin"]
    else EmptyString.

(** [fi.Mode().Perm()&0111 != 0]; [Perm] keeps the bits of [0777]. *)
Definition isExecutable (fi : FileInfo) : bool :=
  negb (Z.land (Z.land (Mode fi) 511) 73 =? 0)%Z.

Definition listPrograms (w : World) (dir : string) : result (list string) :=
  match ioutil_ReadDir w dir with
  | Err err => Err err
  | Ok files =>
      Ok (fold_left
            (fun programs fi =>
               if isExecutable fi
               then (programs ++ [filepath_Join w [dir; Name fi]])%list
               else programs)
            files [])
  end.

(** ** The resolver *)

(** [latest]: the latest version of a package, or an error. *)
Definition latest (w : World) (gid : nat) (pkg : string)
  : list Event * result string :=
  let argv := ["go"; "list"; "-m"; "-json"; pkg ++ "@latest"] in
  let (out, err) := CombinedOutput w gid argv in
  match err with
  | Some err => ([Command argv], Err (Errorf "go list (%w):\n%s" [E_ err; S_ out]))
  | None =>
      match json_Unmarshal w out with
      | Err err => ([Command argv], Err (Errorf "json unmarshal: %v" [E_ err]))
      | Ok version => ([Command argv], Ok version)
      end
  end.

(** ** One task: the function given to [eg.Go] for the program [ff] *)

Definition goFunc (w : World) (latestGo : bool) (gid : nat) (ff : string)
  : list Event * option error :=
  match buildinfo_ReadFile w ff with
  | Err err => ([], Some err)
  | Ok info =>
    let version := module.Version (Main info) in
    if isSpecific version then
      ([Printf "%s %s skip\n" [S_ (Path info); S_ version]], None)
    else
      let (ev, r) := latest w gid (module.Path (Main info)) in
      match (match r with
             | Ok target => Some (ev, target)
             | Err err =>
                 if errors_Is_Canceled err then None
                 else Some ((ev ++ [Printf "%s\n" [E_ err]])%list, "?")
             end) with
      | None => (ev, None)
      | Some (ev, target) =>
        let goUpgrade := latestGo && negb (runtime_Version w =? GoVersion info) in
        let modUpgrade := negb (target =? version) in
        if negb goUpgrade && negb modUpgrade then
          ((ev ++ [Printf "%s %s already latest\n"
                     [S_ (Path info); S_ version]])%list,
           None)
        else
          let ev := (ev ++ [Printf "%s %s -> %s\n"
                              [S_ (Path info); S_ version; S_ target]])%list in
          let argv := ["go"; "install"; Path info ++ "@latest"] in
          let (out, err) := CombinedOutput w gid argv in
          match err with
          | Some err =>
              ((ev ++ [Command argv])%list,
               Some (Errorf "go install (%s):\n%s" [E_ err; S_ out]))
          | None => ((ev ++ [Command argv])%list, None)
          end
      end
  end.

(** ** golang.org/x/sync/errgroup *)

Module errgroup.

(** [sem] is the channel of tokens ([None] when it is nil, otherwise its
    capacity), [wg] the counter of the wait group (the goroutines that have
    not returned, each of which holds a token when there is a channel), and
    [err] the error kept by [errOnce]. *)
Record Group : Type := mkGroup {
  sem : option Z;
  wg : nat;
  err : option error
}.

(** The zero value, [var eg errgroup.Group]. *)
Definition zero : Group := mkGroup None 0 None.

(** [SetLimit]: a negative value indicates no limit. *)
Definition SetLimit (g : Group) (n : Z) : Group :=
  if (n <? 0)%Z then mkGroup None (wg g) (err g)
  else mkGroup (Some n) (wg g) (err g).

(** Whether the send [g.sem <- token{}] of [Go] can proceed. *)
Definition ready (g : Group) : bool :=
  match sem g with
  | None => true
  | Some n => (Z.of_nat (wg g) <? n)%Z
  end.

(** [Go], up to the start of the goroutine; [None] while it blocks. *)
Definition Go (g : Group) : option Group :=
  if ready g then Some (mkGroup (sem g) (S (wg g)) (err g)) else None.

(** The end of a goroutine whose function returned [r]: the first error
    that is not nil is kept, the token is released. *)
Definition done (g : Group) (r : option error) : Group :=
  mkGroup (sem g) (Nat.pred (wg g))
          (match err g with
           | Some e => Some e
           | None => r
           end).

(** [Wait]: blocks ([None]) until every goroutine has returned. *)
Definition Wait (g : Group) : option (option error) :=
  match wg g with
  | O => Some (err g)
  | S _ => None
  end.

End errgroup.

(** ** The runner *)

(** An iteration of [for _, f := range progs]: its index and its file. *)
Definition Task : Type := (nat * string)%type.

(** What a task did and returned. *)
Definition Report : Type := (list Event * option error)%type.

(** The state of [installer] from the loop on: the group, the iterations
    still to come, the goroutines that are running, and the reports of
    those that have returned, in the order in which they did. *)
Record Run : Type := mkRun {
  group : errgroup.Group;
  pending : list Task;
  running : list Task;
  reports : list (nat * Report)
}.

(** The scheduler's choices: the loop gets through its next [eg.Go], or the
    goroutine [gid] runs to its end. *)
Inductive Action : Type :=
| Start
| Finish (gid : nat).

Fixpoint take (gid : nat) (l : list Task) : option (Task * list Task) :=
  match l with
  | [] => None
  | t :: l' =>
      if Nat.eqb (fst t) gid then Some (t, l')
      else match take gid l' with
           | Some (t', l'') => Some (t', t :: l'')
           | None => None
           end
  end.

Definition step (w : World) (latestGo : bool) (a : Action) (s : Run)
  : option Run :=
  match a with
  | Start =>
      match pending s with
      | [] => None
      | t :: ts =>
          match errgroup.Go (group s) with
          | None => None
          | Some g => Some (mkRun g ts (t :: running s) (reports s))
          end
      end
  | Finish gid =>
      match take gid (running s) with
      | None => None
      | Some (t, rs) =>
          let r := goFunc w latestGo (fst t) (snd t) in
          Some (mkRun (errgroup.done (group s) (snd r)) (pending s) rs
                      (reports s ++ [(fst t, r)])%list)
      end
  end.

Fixpoint run (w : World) (latestGo : bool) (sched : list Action) (s : Run)
  : option Run :=
  match sched with
  | [] => Some s
  | a :: sched' =>
      match step w latestGo a s with
      | None => None
      | Some s' => run w latestGo sched' s'
      end
  end.

Definition tasks (progs : list string) : list Task :=
  combine (seq 0 (List.length progs)) progs.

Definition stdout (s : Run) : list Event :=
  flat_map (fun r => fst (snd r)) (reports s).

(** [installer] under the schedule [sched]; the state of the runner when
    [eg.Wait()] returns is kept next to the result.  [None]: the schedule is
    not one of this run, or it leaves the run blocked. *)
Definition installer_run (w : World) (sched : list Action)
           (nProcs : Z) (latestGo : bool)
  : option (option Run * option error) :=
  let dir := gobin w in
  if dir =? EmptyString then Some (None, Some (errors_New "GOBIN not found"))
  else
    match listPrograms w dir with
    | Err err => Some (None, Some err)
    | Ok progs =>
        let eg := errgroup.SetLimit errgroup.zero nProcs in
        match run w latestGo sched (mkRun eg (tasks progs) [] []) with
        | None => None
        | Some s =>
            match pending s, errgroup.Wait (group s) with
            | [], Some r => Some (Some s, r)
            | _, _ => None
            end
        end
    end.

Definition events_of (s : option Run) : list Event :=
  match s with
  | Some s => stdout s
  | None => []
  end.

Definition installer (w : World) (sched : list Action)
           (nProcs : Z) (latestGo : bool) : option (list Event * option error) :=
  match installer_run w sched nProcs latestGo with
  | None => None
  | Some (s, r) => Some (events_of s, r)
  end.

(** ** The command *)

Record Flags : Type := mkFlags {
  showVersion : bool;
  nProcs : Z;
  latestGo : bool
}.

(** The value of [*nProcs] after the test on zero. *)
Definition defaultProcs (w : World) (n : Z) : Z :=
  if (n =? 0)%Z then runtime_NumCPU w else n.

(** [runMain], from the parsed flags on.  The context of the signal is not
    a value of the model: what it does is in what [CombinedOutput] returns.
    The deferred [cancel] and [os.Remove] leave no event. *)
Definition runMain (w : World) (sched : list Action) (fl : Flags)
  : option (list Event * option error) :=
  if showVersion fl then
    match debug_ReadBuildInfo w with
    | None => Some ([], Some (errors_New "could not read buildinfo"))
    | Some bi => Some ([Println [S_ (module.Version (Main bi))]], None)
    end
  else
    let nProcs := defaultProcs w (nProcs fl) in
    match os_MkdirTemp w with
    | Err err => Some ([], Some (Errorf "make temp dir: %w" [E_ err]))
    | Ok dir =>
        match os_Chdir w dir with
        | Some err => Some ([], Some (Errorf "chdir: %w" [E_ err]))
        | None => installer w sched nProcs (latestGo fl)
        end
    end.

(** What [main] does with the result of [runMain]: the events it adds and
    the exit code of the process. *)
Definition exit (r : option error) : list Event * Z :=
  match r with
  | None => ([], 0%Z)
  | Some err =>
      (if negb (errors_Is_Canceled err)
       then [Printf "%s" [S_ (Error err)]]
       else [],
       1%Z)
  end.

Definition main (w : World) (sched : list Action) (fl : Flags)
  : option (list Event * Z) :=
  match runMain w sched fl with
  | None => None
  | Some (ev, r) => Some ((ev ++ fst (exit r))%list, snd (exit r))
  end.

(** ** Reading a report *)

(** The decisions of the design. *)
Inductive Decision : Type :=
| SkippedPinned
| AlreadyLatest
| Upgraded
| ResolveFailed
| InstallFailed.

Definition isInstall (e : Event) : bool :=
  match e with
  | Command ("go" :: "install" :: _) => true
  | _ => false
  end.

Definition isList (e : Event) : bool :=
  match e with
  | Command ("go" :: "list" :: _) => true
  | _ => false
  end.

(** Whether a task started an install, a resolution. *)
Definition installs (ev : list Event) : bool := existsb isInstall ev.
Definition resolves (ev : list Event) : bool := existsb isList ev.

(** The outcome a report stands for, read from the last thing the task did
    and from what it returned: the line "skip", the line "already latest",
    an install that succeeded or failed.  A task that returns before any of
    those (its build information could not be read, its resolution was
    cancelled) reports no outcome. *)
Definition outcome (r : Report) : option Decision :=
  match last (map Some (fst r)) None, snd r with
  | Some (Printf format _), None =>
      if format =? "%s %s skip\n" then Some SkippedPinned
      else if format =? "%s %s already latest\n" then Some AlreadyLatest
      else None
  | Some (Command ("go" :: "install" :: _)), None => Some Upgraded
  | Some (Command ("go" :: "install" :: _)), Some _ => Some InstallFailed
  | _, _ => None
  end.

Definition outcomes (s : Run) : list (nat * Decision) :=
  flat_map (fun r => match outcome (snd r) with
                     | Some d => [(fst r, d)]
                     | None => []
                     end) (reports s).

(** The first error of a list of returned values. *)
Fixpoint first_error (l : list (option error)) : option error :=
  match l with
  | [] => None
  | Some e :: _ => Some e
  | None :: l' => first_error l'
  end.

(** The report of a task, with its index. *)
Definition report_of (w : World) (latestGo : bool) (t : Task) : nat * Report :=
  (fst t, goFunc w latestGo (fst t) (snd t)).

(** The resolution of the task [gid] for the program described by [info]. *)
Definition resolution (w : World) (gid : nat) (info : BuildInfo) : result string :=
  snd (latest w gid (module.Path (Main info))).

(** The two commands of a task. *)
Definition listCommand (info : BuildInfo) : Event :=
  Command ["go"; "list"; "-m"; "-json"; module.Path (Main info) ++ "@latest"].

Definition installCommand (info : BuildInfo) : Event :=
  Command ["go"; "install"; Path info ++ "@latest"].

(** Whether the decision step asks for an install: the toolchain differs
    and [-go] was given, or the target is not the current version. *)
Definition warranted (w : World) (latestGo : bool) (info : BuildInfo)
           (target : string) : bool :=
  let goUpgrade := latestGo && negb (runtime_Version w =? GoVersion info) in
  let modUpgrade := negb (target =? module.Version (Main info)) in
  negb (negb goUpgrade && negb modUpgrade).

(** What the install of a task returns to the group. *)
Definition installResult (w : World) (gid : nat) (info : BuildInfo)
  : option error :=
  let (out, err) := CombinedOutput w gid ["go"; "install"; Path info ++ "@latest"] in
  match err with
  | Some err => Some (Errorf "go install (%s):\n%s" [E_ err; S_ out])
  | None => None
  end.

(** The three lines a task can print about its program. *)
Definition skipLine (info : BuildInfo) : Event :=
  Printf "%s %s skip\n" [S_ (Path info); S_ (module.Version (Main info))].

Definition alreadyLine (info : BuildInfo) : Event :=
  Printf "%s %s already latest\n"
         [S_ (Path info); S_ (module.Version (Main info))].

Definition arrowLine (info : BuildInfo) (target : string) : Event :=
  Printf "%s %s -> %s\n"
         [S_ (Path info); S_ (module.Version (Main info)); S_ target].

(** The resolution of a task was cut by the cancellation. *)
Definition cut (w : World) (gid : nat) (info : BuildInfo) : Prop :=
  isSpecific (module.Version (Main info)) = false
  /\ exists e, resolution w gid info = Err e /\ errors_Is_Canceled e = true.

(** Every command of the world that fails, fails with the cancellation. *)
Definition onlyCancelled (w : World) : Prop :=
  forall gid argv e,
    snd (CombinedOutput w gid argv) = Some e -> errors_Is_Canceled e = true.

(** ** Schedules, and the invariant of a run *)

(** The state in which the loop of [installer] starts. *)
Definition start (nProcs : Z) (progs : list string) : Run :=
  mkRun (errgroup.SetLimit errgroup.zero nProcs) (tasks progs) [] [].

(** The schedule that runs the tasks one after the other. *)
Definition sequential (ts : list Task) : list Action :=
  flat_map (fun t => [Start; Finish (fst t)]) ts.

(** A group that lets a goroutine start when none is running. *)
Definition roomy (g : errgroup.Group) : Prop :=
  match errgroup.sem g with
  | None => True
  | Some k => (1 <= k)%Z
  end.

(** The limit of the group of [installer] when [-j] is [n]. *)
Definition limit (w : World) (n : Z) : option Z :=
  errgroup.sem (errgroup.SetLimit errgroup.zero (defaultProcs w n)).

(** Every task of [ts] is in exactly one of three places (it has reported,
    it is running, it is still to be started), the counter of the group is
    the number of running goroutines, it respects the capacity of the channel
    when there is one, and the error of the group is the first one that was
    returned. *)
Definition Inv (w : World) (latestGo : bool) (ts : list Task)
           (sem0 : option Z) (s : Run) : Prop :=
  Permutation (reports s ++ map (report_of w latestGo) (running s)
                         ++ map (report_of w latestGo) (pending s))%list
              (map (report_of w latestGo) ts)
  /\ errgroup.wg (group s) = List.length (running s)
  /\ errgroup.sem (group s) = sem0
  /\ match sem0 with
     | Some k => (Z.of_nat (List.length (running s)) <= k)%Z
     | None => True
     end
  /\ errgroup.err (group s)
     = first_error (map (fun r => snd (snd r)) (reports s)).

(** ** Two runs in a row *)

(** The build information of a program once it has been installed again:
    its version is the resolved target, its toolchain the one of the [go]
    command that built it; its paths are the same. *)
Definition reinstalled (info : BuildInfo) (target toolchain : string)
  : BuildInfo :=
  mkBuildInfo toolchain (Path info)
              (module.mk (module.Path (Main info)) target).

(** The world after a run, for the property of idempotence: the programs
    that the run upgraded to a resolved target are [reinstalled], and
    nothing else has changed (the same directory, the same answers of the
    resolver).  [toolchain] is the version of the [go] command. *)
Definition afterRun (w : World) (lg : bool) (toolchain : string) : World :=
  mkWorld (os_Getenv w) (filepath_Join w) (ioutil_ReadDir w)
          (fun f =>
             match buildinfo_ReadFile w f with
             | Err e => Err e
             | Ok info =>
                 match listPrograms w (gobin w) with
                 | Err _ => Ok info
                 | Ok progs =>
                     match find (fun t : Task => snd t =? f) (tasks progs) with
                     | None => Ok info
                     | Some t =>
                         match outcome (goFunc w lg (fst t) f),
                               resolution w (fst t) info with
                         | Some Upgraded, Ok target =>
                             Ok (reinstalled info target toolchain)
                         | _, _ => Ok info
                         end
                     end
                 end
             end)
          (CombinedOutput w) (json_Unmarshal w) (runtime_Version w)
          (runtime_NumCPU w) (debug_ReadBuildInfo w) (os_MkdirTemp w)
          (os_Chdir w).

(** ** Semantic versions, as a grammar *)

(** The versions that [isSpecific] is meant to catch, written as the
    grammar of Semantic Versioning 2.0.0 with the leading "v" of Go: three
    numerals, then a pre-release (a hyphen and identifiers separated by
    dots, the numeric ones without a leading zero), then possibly build
    metadata (a plus sign and identifiers separated by dots). *)
Module Grammar.

Fixpoint all (p : ascii -> bool) (s : string) : bool :=
  match s with
  | EmptyString => true
  | String c s' => p c && all p s'
  end.

Definition noLeadingZero (s : string) : Prop :=
  forall s', s = String "0" s' -> s' = EmptyString.

Definition numeral (s : string) : Prop :=
  s <> EmptyString /\ all semver.isDigit s = true /\ noLeadingZero s.

Definition ident (s : string) : Prop :=
  s <> EmptyString /\ all semver.isIdentChar s = true.

Definition preIdent (s : string) : Prop :=
  ident s /\ (all semver.isDigit s = true -> noLeadingZero s).

Inductive dotted (P : string -> Prop) : string -> Prop :=
| dotted_one (id : string) : P id -> dotted P id
| dotted_more (id s : string) :
    P id -> dotted P s -> dotted P (id ++ "." ++ s).

Definition pinned (v : string) : Prop :=
  exists ma mi pa pre bld,
    v = "v" ++ ma ++ "." ++ mi ++ "." ++ pa ++ "-" ++ pre ++ bld
    /\ numeral ma /\ numeral mi /\ numeral pa
    /\ dotted preIdent pre
    /\ (bld = EmptyString \/ exists b, bld = "+" ++ b /\ dotted ident b).

End Grammar.


(** Whether a string starts with a digit. *)
Definition startsDigit (v : string) : bool :=
  match v with
  | EmptyString => false
  | String c _ => semver.isDigit c
  end.

(** Where the loop of [parsePrerelease] stops: at the end, or at a plus. *)
Definition stops (r : string) : Prop :=
  r = EmptyString \/ semver.startsWith "+" r = true.

(** ** Worlds to run the program in *)

(** A program of GOBIN: its file name, what its build information is, and
    what the two commands of its task return. *)
Record Prog : Type := mkProg {
  name : string;
  info_of : result BuildInfo;
  listing : string * option error;
  installing : string * option error
}.

Definition gobinDir : string := "/home/gopher/go/bin".

Fixpoint lookup (f : string) (ps : list Prog) : result BuildInfo :=
  match ps with
  | [] => Err (errorString "no such file or directory")
  | p :: ps' =>
      if f =? gobinDir ++ "/" ++ name p then info_of p else lookup f ps'
  end.

(** The decoder of these worlds takes the whole listing as the version. *)
Definition worldOf (ps : list Prog) (goVersion : string) (numCPU : Z) : World :=
  {| os_Getenv := fun k => if k =? "GOBIN" then gobinDir else EmptyString;
     filepath_Join := String.concat "/";
     ioutil_ReadDir := fun _ => Ok (map (fun p => mkFileInfo (name p) 493) ps);
     buildinfo_ReadFile := fun f => lookup f ps;
     CombinedOutput := fun gid argv =>
       match nth_error ps gid with
       | None => (EmptyString, None)
       | Some p =>
           match argv with
           | _ :: verb :: _ => if verb =? "list" then listing p else installing p
           | _ => installing p
           end
       end;
     json_Unmarshal := fun out => Ok out;
     runtime_Version := goVersion;
     runtime_NumCPU := numCPU;
     debug_ReadBuildInfo := None;
     os_MkdirTemp := Ok "/tmp/0";
     os_Chdir := fun _ => None |}.

Definition infoAt (pkg version goVersion : string) : BuildInfo :=
  mkBuildInfo goVersion ("example.com/" ++ pkg ++ "/cmd/" ++ pkg)
              (module.mk ("example.com/" ++ pkg) version).

Definition exitStatus1 : option error := Some (errorString "exit status 1").

(** A program at v1.0.0 whose module has v1.1.0. *)
Definition behind (pkg : string) : Prog :=
  mkProg pkg (Ok (infoAt pkg "v1.0.0" "go1.21.0"))
         ("v1.1.0", None) (EmptyString, None).

(** A program at the latest version of its module. *)
Definition upToDate (pkg : string) : Prog :=
  mkProg pkg (Ok (infoAt pkg "v1.1.0" "go1.21.0"))
         ("v1.1.0", None) (EmptyString, None).

(** A program built from a local tree. *)
Definition devel (pkg : string) : Prog :=
  mkProg pkg (Ok (infoAt pkg "(devel)" "go1.21.0"))
         ("v1.1.0", None) (EmptyString, None).

(** A program whose module cannot be listed. *)
Definition unlisted (pkg : string) : Prog :=
  mkProg pkg (Ok (infoAt pkg "v1.0.0" "go1.21.0"))
         ("no matching versions", exitStatus1) (EmptyString, None).

(** A program whose resolution is cut by the cancellation. *)
Definition cutResolving (pkg : string) : Prog :=
  mkProg pkg (Ok (infoAt pkg "v1.0.0" "go1.21.0"))
         (EmptyString, Some context_Canceled) (EmptyString, Some context_Canceled).

(** A program whose install is cut by the cancellation. *)
Definition cutInstalling (pkg : string) : Prog :=
  mkProg pkg (Ok (infoAt pkg "v1.0.0" "go1.21.0"))
         ("v1.1.0", None) (EmptyString, Some context_Canceled).

(** A program whose install fails. *)
Definition broken (pkg : string) : Prog :=
  mkProg pkg (Ok (infoAt pkg "v1.0.0" "go1.21.0"))
         ("v1.1.0", None) ("build failed", exitStatus1).

Definition flags (j : Z) (go : bool) : Flags := mkFlags false j go.

(** A program at v1.0.0 whose module only has a release candidate. *)
Definition candidate (pkg : string) : Prog :=
  mkProg pkg (Ok (infoAt pkg "v1.0.0" "go1.21.0"))
         ("v1.1.0-rc.1", None) (EmptyString, None).

(** ** The commands of a task *)

Definition isCommand (e : Event) : bool :=
  match e with
  | Command _ => true
  | _ => false
  end.

(** The commands among the events, in their order. *)
Definition commands (ev : list Event) : list Event := filter isCommand ev.

(** ** The sequential revision of the program *)

(** The revision of [main.go] before the group of goroutines: [latest]
    formats the error of [go list] with [%s], [installer] goes through the
    programs in a loop and returns at the first error, there is neither a
    test on the cancellation nor a flag [-go], and [main] always prints the
    error.  [gobin], [listPrograms], [isExecutable] and [isSpecific] are the
    same.  The number given to [CombinedOutput] is the index of the
    iteration. *)
Module rev1.

Definition latest (w : World) (gid : nat) (pkg : string)
  : list Event * result string :=
  let argv := ["go"; "list"; "-m"; "-json"; pkg ++ "@latest"] in
  let (out, err) := CombinedOutput w gid argv in
  match err with
  | Some err => ([Command argv], Err (Errorf "go list (%s):\n%s" [E_ err; S_ out]))
  | None =>
      match json_Unmarshal w out with
      | Err err => ([Command argv], Err (Errorf "json unmarshal: %v" [E_ err]))
      | Ok version => ([Command argv], Ok version)
      end
  end.

(** One iteration of the loop: [Some err] is [return err], [None] is the end
    of the body or a [continue]. *)
Definition iteration (w : World) (gid : nat) (f : string)
  : list Event * option error :=
  match buildinfo_ReadFile w f with
  | Err err => ([], Some err)
  | Ok info =>
    let version := module.Version (Main info) in
    if isSpecific version then
      ([Printf "%s %s skip\n" [S_ (Path info); S_ version]], None)
    else
      let (ev, r) := latest w gid (module.Path (Main info)) in
      let (ev, target) :=
        match r with
        | Ok target => (ev, target)
        | Err err => ((ev ++ [Printf "%s\n" [E_ err]])%list, "?")
        end in
      if version =? target then (ev, None)
      else
        let ev := (ev ++ [Printf "%s %s -> %s\n"
                            [S_ (Path info); S_ version; S_ target]])%list in
        let argv := ["go"; "install"; Path info ++ "@latest"] in
        let (out, err) := CombinedOutput w gid argv in
        match err with
        | Some err =>
            ((ev ++ [Command argv])%list,
             Some (Errorf "go install (%s):\n%s" [E_ err; S_ out]))
        | None => ((ev ++ [Command argv])%list, None)
        end
  end.

(** [for _, f := range progs], from the iteration [t] on. *)
Fixpoint loop (w : World) (ts : list Task) : list Event * option error :=
  match ts with
  | [] => ([], None)
  | t :: ts' =>
      let (ev, r) := iteration w (fst t) (snd t) in
      match r with
      | Some err => (ev, Some err)
      | None => let (ev', r') := loop w ts' in ((ev ++ ev')%list, r')
      end
  end.

Definition installer (w : World) : list Event * option error :=
  let dir := gobin w in
  if dir =? EmptyString then ([], Some (errors_New "GOBIN not found"))
  else
    match listPrograms w dir with
    | Err err => ([], Some err)
    | Ok progs => loop w (tasks progs)
    end.

Definition runMain (w : World) (showVersion : bool)
  : list Event * option error :=
  if showVersion then
    match debug_ReadBuildInfo w with
    | None => ([], Some (errors_New "could not read buildinfo"))
    | Some bi => ([Println [S_ (module.Version (Main bi))]], None)
    end
  else installer w.

Definition main (w : World) (showVersion : bool) : list Event * Z :=
  let (ev, r) := runMain w showVersion in
  match r with
  | None => (ev, 0%Z)
  | Some err => ((ev ++ [Printf "%s" [S_ (Error err)]])%list, 1%Z)
  end.

End rev1.

(** * Properties *)

(** ** Lists, errors, formats *)

Lemma first_error_app (l : list (option error)) (r : option error) :
  first_error (l ++ [r])
  = match first_error l with Some e => Some e | None => r end.
Proof.
  induction l as [|[e|] l IH]; simpl; auto.
  destruct r; reflexivity.
Qed.

Lemma take_spec (gid : nat) (l : list Task) (t : Task) (l' : list Task) :
  take gid l = Some (t, l') -> fst t = gid /\ Permutation l (t :: l').
Proof.
  revert t l'. induction l as [|x l IH]; intros t l'; simpl; [discriminate|].
  destruct (Nat.eqb (fst x) gid) eqn:E.
  - intros [= <- <-]. split; [now apply Nat.eqb_eq | apply Permutation_refl].
  - destruct (take gid l) as [[t' l'']|] eqn:T; [|discriminate].
    intros [= <- <-]. destruct (IH _ _ eq_refl) as [H1 H2]. split; [exact H1|].
    apply perm_trans with (x :: t' :: l''); [now apply perm_skip | apply perm_swap].
Qed.

Lemma take_head (t : Task) (l : list Task) : take (fst t) (t :: l) = Some (t, l).
Proof. simpl. now rewrite Nat.eqb_refl. Qed.

Lemma Errorf_install_not_canceled (e : error) (out : string) :
  errors_Is_Canceled (Errorf "go install (%s):\n%s" [E_ e; S_ out]) = false.
Proof. reflexivity. Qed.

Lemma Errorf_list_canceled (e : error) (out : string) :
  errors_Is_Canceled (Errorf "go list (%w):\n%s" [E_ e; S_ out])
  = errors_Is_Canceled e.
Proof. reflexivity. Qed.

Lemma Errorf_json_not_canceled (e : error) :
  errors_Is_Canceled (Errorf "json unmarshal: %v" [E_ e]) = false.
Proof. reflexivity. Qed.

(** ** The parser of semantic versions and the grammar *)

Arguments semver.isDigit : simpl never.
Arguments semver.isIdentChar : simpl never.

Lemma append_empty (s : string) : s ++ EmptyString = s.
Proof. induction s as [|c s IH]; cbn; [reflexivity | now rewrite IH]. Qed.

Lemma append_assoc (a b c : string) : (a ++ b) ++ c = a ++ b ++ c.
Proof. induction a as [|x a IH]; cbn; [reflexivity | now rewrite IH]. Qed.

Lemma all_app (p : ascii -> bool) (a b : string) :
  Grammar.all p (a ++ b) = Grammar.all p a && Grammar.all p b.
Proof.
  induction a as [|c a IH]; cbn; [reflexivity|]. now rewrite IH, andb_assoc.
Qed.

Lemma spanDigits_elim (v t rest : string) :
  semver.spanDigits v = (t, rest) ->
  v = t ++ rest /\ Grammar.all semver.isDigit t = true /\ startsDigit rest = false.
Proof.
  revert t rest. induction v as [|c v IH]; intros t rest; cbn.
  - intros [= <- <-]. auto.
  - destruct (semver.isDigit c) eqn:Ec.
    + destruct (semver.spanDigits v) as [t' rest'].
      intros [= <- <-]. destruct (IH _ _ eq_refl) as (-> & Ht & Hr).
      cbn. rewrite Ec, Ht. auto.
    + intros [= <- <-]. cbn. rewrite Ec. auto.
Qed.

Lemma spanDigits_intro (t rest : string) :
  Grammar.all semver.isDigit t = true -> startsDigit rest = false ->
  semver.spanDigits (t ++ rest) = (t, rest).
Proof.
  intros Ht Hr. induction t as [|c t IH]; cbn.
  - destruct rest as [|c rest]; [reflexivity|]. cbn in Hr. cbn. now rewrite Hr.
  - cbn in Ht. apply andb_prop in Ht as [Hc Ht]. now rewrite Hc, (IH Ht).
Qed.

Lemma parseInt_iff (v t rest : string) :
  semver.parseInt v = Some (t, rest)
  <-> Grammar.numeral t /\ v = t ++ rest /\ startsDigit rest = false.
Proof.
  unfold semver.parseInt. split.
  - destruct v as [|c v]; [discriminate|].
    destruct (semver.isDigit c) eqn:Ec; [|discriminate]. cbn [negb].
    destruct (semver.spanDigits (String c v)) as [t' rest'] eqn:Es.
    destruct (spanDigits_elim _ _ _ Es) as (Hv & Ht & Hr).
    destruct ((c =? "0")%char && negb (Nat.eqb (String.length t') 1)) eqn:E0;
      [discriminate|].
    intros [= <- <-]. split; [|auto]. split; [|split; [exact Ht|]].
    + intros ->. cbn in Es. rewrite Ec in Es.
      destruct (semver.spanDigits v); discriminate.
    + intros s' ->. cbn in Hv. injection Hv as -> _.
      cbn in E0. destruct s'; [reflexivity | discriminate].
  - intros ((Hne & Hd & Hz) & -> & Hr).
    destruct t as [|c t]; [now elim Hne|]. cbn [append].
    pose proof Hd as Hd'. cbn in Hd'. apply andb_prop in Hd' as [Hc _].
    rewrite Hc. cbn [negb].
    change (String c (t ++ rest)) with (String c t ++ rest).
    rewrite (spanDigits_intro _ _ Hd Hr).
    destruct (c =? "0")%char eqn:E0; [|reflexivity].
    apply Ascii.eqb_eq in E0. subst c. rewrite (Hz t eq_refl). reflexivity.
Qed.

Lemma isBadNum_iff (v : string) :
  semver.isBadNum v = true
  <-> Grammar.all semver.isDigit v = true /\ ~ Grammar.noLeadingZero v.
Proof.
  unfold semver.isBadNum, Grammar.noLeadingZero.
  destruct (semver.spanDigits v) as [t rest] eqn:Es.
  destruct (spanDigits_elim _ _ _ Es) as (Hv & Ht & Hr). split.
  - destruct rest as [|c rest]; [|discriminate]. rewrite append_empty in Hv.
    subst t. intros H. apply andb_prop in H as [Hlen H0]. split; [exact Ht|].
    destruct v as [|c v]; [discriminate|]. apply Ascii.eqb_eq in H0. subst c.
    intros C. rewrite (C v eq_refl) in Hlen. discriminate.
  - intros [Hd Hz].
    assert (rest = EmptyString /\ t = v) as [-> ->].
    { rewrite <- (append_empty v) in Es.
      rewrite (spanDigits_intro v EmptyString Hd eq_refl) in Es.
      now injection Es as <- <-. }
    destruct v as [|c v]; [elim Hz; intros s'; discriminate|].
    destruct (c =? "0")%char eqn:E0.
    + apply Ascii.eqb_eq in E0. subst c.
      destruct v; [elim Hz; now intros s' [= <-] | reflexivity].
    + elim Hz. intros s' [= -> _]. discriminate.
Qed.

Lemma digit_ident (c : ascii) :
  semver.isDigit c = true -> semver.isIdentChar c = true.
Proof.
  unfold semver.isDigit, semver.isIdentChar. intros ->.
  now rewrite orb_true_r.
Qed.

Lemma ident_not_plus (c : ascii) :
  semver.isIdentChar c = true -> (c =? "+")%char = false.
Proof.
  intros H. destruct (c =? "+")%char eqn:E; [|reflexivity].
  apply Ascii.eqb_eq in E. subst c. discriminate.
Qed.

Lemma ident_not_dot (c : ascii) :
  semver.isIdentChar c = true -> (c =? ".")%char = false.
Proof.
  intros H. destruct (c =? ".")%char eqn:E; [|reflexivity].
  apply Ascii.eqb_eq in E. subst c. discriminate.
Qed.

Lemma badIdent_preIdent (cur : string) :
  Grammar.all semver.isIdentChar cur = true ->
  (semver.badIdent cur = false <-> Grammar.preIdent cur).
Proof.
  intros Hall. unfold Grammar.preIdent, Grammar.ident, semver.badIdent. split.
  - destruct cur as [|c cur]; [discriminate|]. intros Hb.
    split; [split; [discriminate | exact Hall]|]. intros Hd.
    destruct (semver.isBadNum (String c cur)) eqn:E; [discriminate|].
    intros s' Hs'.
    destruct (string_dec s' EmptyString) as [->|Hne]; [reflexivity|].
    assert (semver.isBadNum (String c cur) = true); [|congruence].
    apply isBadNum_iff. split; [exact Hd|]. intros C. apply Hne.
    now apply C.
  - intros [[Hne _] Hz]. destruct cur as [|c cur]; [now elim Hne|].
    destruct (semver.isBadNum (String c cur)) eqn:E; [|reflexivity].
    apply isBadNum_iff in E as [Hd Hnz]. elim Hnz. now apply Hz.
Qed.

Lemma prereleaseLoop_elim (rest : string) :
  forall acc cur p r,
    Grammar.all semver.isIdentChar cur = true ->
    semver.prereleaseLoop acc cur rest = Some (p, r) ->
    exists x,
      rest = x ++ r /\ p = acc ++ x /\ Grammar.dotted Grammar.preIdent (cur ++ x) /\ stops r.
Proof.
  induction rest as [|c rest IH]; intros acc cur p r Hcur; cbn [semver.prereleaseLoop].
  - destruct (semver.badIdent cur) eqn:Eb; [discriminate|]. intros [= <- <-].
    exists EmptyString. rewrite !append_empty.
    repeat split; [|now left]. apply Grammar.dotted_one. now apply badIdent_preIdent.
  - destruct (c =? "+")%char eqn:Eplus.
    + destruct (semver.badIdent cur) eqn:Eb; [discriminate|]. intros [= <- <-].
      exists EmptyString. rewrite !append_empty.
      repeat split; [|right; exact Eplus].
      apply Grammar.dotted_one. now apply badIdent_preIdent.
    + destruct (semver.isIdentChar c) eqn:Ei; cbn [negb andb].
      * rewrite (ident_not_dot c Ei). intros H.
        assert (Hc2 : Grammar.all semver.isIdentChar (cur ++ String c EmptyString) = true).
        { rewrite all_app, Hcur. cbn. now rewrite Ei. }
        destruct (IH _ _ _ _ Hc2 H) as (x & -> & -> & Hd & Hs).
        exists (String c x). rewrite !append_assoc in *. cbn in *. auto.
      * destruct (c =? ".")%char eqn:Edot; cbn [negb]; [|discriminate].
        destruct (semver.badIdent cur) eqn:Eb; [discriminate|]. intros H.
        destruct (IH _ EmptyString _ _ eq_refl H) as (x & -> & -> & Hd & Hs).
        apply Ascii.eqb_eq in Edot. subst c.
        exists (String "." x). rewrite !append_assoc. cbn in *.
        repeat split; [|exact Hs].
        apply (Grammar.dotted_more Grammar.preIdent cur x); [|exact Hd].
        now apply badIdent_preIdent.
Qed.

Lemma prereleaseLoop_idents (id : string) :
  forall acc cur rest,
    Grammar.all semver.isIdentChar id = true ->
    semver.prereleaseLoop acc cur (id ++ rest)
    = semver.prereleaseLoop (acc ++ id) (cur ++ id) rest.
Proof.
  induction id as [|c id IH]; intros acc cur rest Hid.
  - cbn. now rewrite !append_empty.
  - cbn in Hid. apply andb_prop in Hid as [Hc Hid].
    cbn [append semver.prereleaseLoop].
    rewrite (ident_not_plus c Hc), (ident_not_dot c Hc), Hc. cbn [negb andb].
    rewrite (IH _ _ _ Hid), !append_assoc. reflexivity.
Qed.

Lemma prereleaseLoop_stop (acc cur r : string) :
  stops r -> semver.badIdent cur = false ->
  semver.prereleaseLoop acc cur r = Some (acc, r).
Proof.
  intros [->|Hr] Hb; cbn.
  - now rewrite Hb.
  - destruct r as [|c r]; [discriminate|]. cbn in Hr. cbn. now rewrite Hr, Hb.
Qed.

Lemma prereleaseLoop_intro (s : string) :
  Grammar.dotted Grammar.preIdent s ->
  forall acc r,
    stops r -> semver.prereleaseLoop acc EmptyString (s ++ r) = Some (acc ++ s, r).
Proof.
  induction 1 as [id Hid|id s Hid Hs IH]; intros acc r Hr.
  - rewrite prereleaseLoop_idents by apply Hid. cbn [append].
    apply prereleaseLoop_stop; [exact Hr|].
    apply badIdent_preIdent; [apply Hid | exact Hid].
  - rewrite !append_assoc.
    rewrite prereleaseLoop_idents by apply Hid. cbn [append semver.prereleaseLoop].
    assert (Hb : semver.badIdent id = false)
      by (apply badIdent_preIdent; [apply Hid | exact Hid]).
    change ("." =? "+")%char with false. change ("." =? ".")%char with true.
    change (semver.isIdentChar ".") with false. cbn [negb andb].
    rewrite Hb, (IH _ _ Hr), !append_assoc. reflexivity.
Qed.

Lemma buildLoop_elim (rest : string) :
  forall acc cur p r,
    Grammar.all semver.isIdentChar cur = true ->
    semver.buildLoop acc cur rest = Some (p, r) ->
    r = EmptyString /\ p = acc ++ rest /\ Grammar.dotted Grammar.ident (cur ++ rest).
Proof.
  induction rest as [|c rest IH]; intros acc cur p r Hcur; cbn [semver.buildLoop].
  - destruct cur as [|c cur]; [discriminate|]. intros [= <- <-].
    rewrite !append_empty. repeat split. apply Grammar.dotted_one.
    split; [discriminate | exact Hcur].
  - destruct (semver.isIdentChar c) eqn:Ei; cbn [negb andb].
    + rewrite (ident_not_dot c Ei). intros H.
      assert (Hc2 : Grammar.all semver.isIdentChar (cur ++ String c EmptyString) = true).
      { rewrite all_app, Hcur. cbn. now rewrite Ei. }
      destruct (IH _ _ _ _ Hc2 H) as (-> & -> & Hd).
      rewrite !append_assoc in *. cbn in *. auto.
    + destruct (c =? ".")%char eqn:Edot; cbn [negb]; [|discriminate].
      destruct cur as [|c' cur]; [discriminate|]. intros H.
      destruct (IH _ EmptyString _ _ eq_refl H) as (-> & -> & Hd).
      apply Ascii.eqb_eq in Edot. subst c.
      rewrite !append_assoc. cbn in *. repeat split.
      apply (Grammar.dotted_more Grammar.ident (String c' cur) rest); [|exact Hd].
      split; [discriminate | exact Hcur].
Qed.

Lemma buildLoop_idents (id : string) :
  forall acc cur rest,
    Grammar.all semver.isIdentChar id = true ->
    semver.buildLoop acc cur (id ++ rest)
    = semver.buildLoop (acc ++ id) (cur ++ id) rest.
Proof.
  induction id as [|c id IH]; intros acc cur rest Hid.
  - cbn. now rewrite !append_empty.
  - cbn in Hid. apply andb_prop in Hid as [Hc Hid].
    cbn [append semver.buildLoop].
    rewrite (ident_not_dot c Hc), Hc. cbn [negb andb].
    rewrite (IH _ _ _ Hid), !append_assoc. reflexivity.
Qed.

Lemma buildLoop_intro (s : string) :
  Grammar.dotted Grammar.ident s ->
  forall acc, semver.buildLoop acc EmptyString s = Some (acc ++ s, EmptyString).
Proof.
  induction 1 as [id Hid|id s Hid Hs IH]; intros acc.
  - rewrite <- (append_empty id) at 1.
    rewrite buildLoop_idents by apply Hid. cbn [append semver.buildLoop].
    destruct Hid as [Hne _]. destruct id; [now elim Hne | reflexivity].
  - rewrite buildLoop_idents by apply Hid. cbn [append semver.buildLoop].
    change ("." =? ".")%char with true.
    change (semver.isIdentChar ".") with false. cbn [negb andb].
    destruct Hid as [Hne _]. destruct id as [|c id]; [now elim Hne|].
    rewrite (IH _), !append_assoc. reflexivity.
Qed.

Lemma parse_pinned (v : string) (pv : semver.parsed) :
  semver.parse v = Some pv -> semver.prerelease pv <> EmptyString -> Grammar.pinned v.
Proof.
  unfold semver.parse. destruct v as [|c v1]; [discriminate|].
  destruct (c =? "v")%char eqn:Ev; cbn [negb]; [|discriminate].
  apply Ascii.eqb_eq in Ev. subst c.
  destruct (semver.parseInt v1) as [[ma v2]|] eqn:P1; [|discriminate].
  apply parseInt_iff in P1 as (Hma & -> & _).
  destruct v2 as [|c2 v3]; [intros [= <-] H; now elim H|].
  destruct (c2 =? ".")%char eqn:E2; cbn [negb]; [|discriminate].
  apply Ascii.eqb_eq in E2. subst c2.
  destruct (semver.parseInt v3) as [[mi v4]|] eqn:P2; [|discriminate].
  apply parseInt_iff in P2 as (Hmi & -> & _).
  destruct v4 as [|c4 v5]; [intros [= <-] H; now elim H|].
  destruct (c4 =? ".")%char eqn:E4; cbn [negb]; [|discriminate].
  apply Ascii.eqb_eq in E4. subst c4.
  destruct (semver.parseInt v5) as [[pa v6]|] eqn:P3; [|discriminate].
  apply parseInt_iff in P3 as (Hpa & -> & _).
  destruct (semver.startsWith "-" v6) eqn:S6.
  - destruct v6 as [|c6 v6]; [discriminate|]. cbn in S6.
    apply Ascii.eqb_eq in S6. subst c6. cbn [semver.parsePrerelease].
    change ("-" =? "-")%char with true. cbn [negb].
    destruct (semver.prereleaseLoop "-" EmptyString v6) as [[pre v7]|] eqn:PL;
      [|discriminate].
    apply prereleaseLoop_elim in PL as (x & -> & -> & Hx & Hstop); [|reflexivity].
    cbn [append] in Hx.
    destruct (semver.startsWith "+" v7) eqn:S7.
    + destruct v7 as [|c7 v7]; [discriminate|]. cbn in S7.
      apply Ascii.eqb_eq in S7. subst c7. cbn [semver.parseBuild].
      change ("+" =? "+")%char with true. cbn [negb].
      destruct (semver.buildLoop "+" EmptyString v7) as [[bld v8]|] eqn:BL;
        [|discriminate].
      apply buildLoop_elim in BL as (-> & -> & Hb); [|reflexivity].
      intros _ _. exists ma, mi, pa, x, ("+" ++ v7).
      repeat split; try apply Hma; try apply Hmi; try apply Hpa; auto.
      right. exists v7. auto.
    + destruct Hstop as [->|C]; [|congruence]. intros _ _.
      exists ma, mi, pa, x, EmptyString.
      repeat split; try apply Hma; try apply Hmi; try apply Hpa; auto.
  - destruct (semver.startsWith "+" v6).
    + destruct (semver.parseBuild v6) as [[bld v8]|]; [|discriminate].
      destruct v8; [|discriminate]. intros [= <-] H. now elim H.
    + destruct v6; [|discriminate]. intros [= <-] H. now elim H.
Qed.

Lemma pinned_parse (v : string) :
  Grammar.pinned v ->
  exists pv, semver.parse v = Some pv /\ semver.prerelease pv <> EmptyString.
Proof.
  intros (ma & mi & pa & pre & bld & -> & Hma & Hmi & Hpa & Hpre & Hbld).
  assert (P1 : forall rest, semver.parseInt (ma ++ String "." rest)
                            = Some (ma, String "." rest))
    by (intros; apply parseInt_iff; auto).
  assert (P2 : forall rest, semver.parseInt (mi ++ String "." rest)
                            = Some (mi, String "." rest))
    by (intros; apply parseInt_iff; auto).
  assert (P3 : forall rest, semver.parseInt (pa ++ String "-" rest)
                            = Some (pa, String "-" rest))
    by (intros; apply parseInt_iff; auto).
  assert (Hstop : stops bld).
  { destruct Hbld as [->|(b & -> & _)]; [now left | now right]. }
  unfold semver.parse. cbn [append]. change ("v" =? "v")%char with true.
  cbn [negb]. rewrite P1. change ("." =? ".")%char with true.
  cbn [negb]. rewrite P2. change ("." =? ".")%char with true.
  cbn [negb]. rewrite P3. cbn [semver.startsWith semver.parsePrerelease].
  change ("-" =? "-")%char with true. cbn [negb].
  rewrite (prereleaseLoop_intro pre Hpre "-" bld Hstop).
  destruct Hbld as [->|(b & -> & Hb)].
  - cbn. eexists. split; [reflexivity|]. discriminate.
  - cbn [append semver.startsWith semver.parseBuild].
    change ("+" =? "+")%char with true. cbn [negb].
    rewrite (buildLoop_intro b Hb "+"). eexists. split; [reflexivity|].
    discriminate.
Qed.

Lemma pinned_iff (v : string) :
  semver.IsValid v = true /\ semver.Prerelease v <> EmptyString <-> Grammar.pinned v.
Proof.
  unfold semver.IsValid, semver.Prerelease. split.
  - destruct (semver.parse v) as [pv|] eqn:P; [|intros [? _]; discriminate].
    intros [_ H]. exact (parse_pinned v pv P H).
  - intros H. destruct (pinned_parse v H) as (pv & -> & Hpre). auto.
Qed.

(** ** The runner keeps its invariant *)

Section Runner.

Variable w : World.
Variable latestGo : bool.
Variable ts : list Task.
Variable sem0 : option Z.

Lemma step_Inv (a : Action) (s s' : Run) :
  Inv w latestGo ts sem0 s -> step w latestGo a s = Some s' ->
  Inv w latestGo ts sem0 s'.
Proof.
  intros (HP & Hwg & Hsem & Hcap & Herr) Hstep.
  destruct a as [|gid]; cbn [step] in Hstep.
  - destruct (pending s) as [|t ps] eqn:Ep; [discriminate|].
    destruct (errgroup.Go (group s)) as [g|] eqn:EG; [|discriminate].
    injection Hstep as <-.
    unfold errgroup.Go in EG.
    destruct (errgroup.ready (group s)) eqn:ER; [|discriminate].
    injection EG as <-.
    unfold Inv; cbn [group pending running reports errgroup.wg errgroup.sem
                     errgroup.err].
    split; [|split; [|split; [|split]]].
    + eapply perm_trans; [|exact HP]. apply Permutation_app_head.
      cbn [map]. apply (Permutation_middle (map (report_of w latestGo) (running s))).
    + cbn [List.length]. now rewrite Hwg.
    + exact Hsem.
    + destruct sem0 as [k|]; [|exact I].
      unfold errgroup.ready in ER. rewrite Hsem, Hwg in ER.
      apply Z.ltb_lt in ER. cbn [List.length]. lia.
    + exact Herr.
  - destruct (take gid (running s)) as [[t rs]|] eqn:T; [|discriminate].
    injection Hstep as <-. destruct (take_spec _ _ _ _ T) as [Hg Hperm].
    unfold Inv, errgroup.done;
      cbn [group pending running reports errgroup.wg errgroup.sem errgroup.err].
    split; [|split; [|split; [|split]]].
    + eapply perm_trans; [|exact HP].
      rewrite <- app_assoc. apply Permutation_app_head.
      apply Permutation_sym.
      apply (Permutation_map (report_of w latestGo)) in Hperm.
      apply (Permutation_app_tail (map (report_of w latestGo) (pending s)))
        in Hperm.
      exact Hperm.
    + rewrite Hwg. apply Permutation_length in Hperm. rewrite Hperm. reflexivity.
    + exact Hsem.
    + destruct sem0 as [k|]; [|exact I].
      apply Permutation_length in Hperm. cbn [List.length] in Hperm. lia.
    + rewrite map_app. cbn [map]. rewrite first_error_app, Herr. reflexivity.
Qed.

Lemma run_Inv (sched : list Action) (s s' : Run) :
  Inv w latestGo ts sem0 s -> run w latestGo sched s = Some s' ->
  Inv w latestGo ts sem0 s'.
Proof.
  revert s. induction sched as [|a sched IH]; intros s HI; simpl.
  - now intros [= <-].
  - destruct (step w latestGo a s) as [s1|] eqn:E; [|discriminate].
    intros H. apply (IH s1); [eapply step_Inv; eauto | exact H].
Qed.

End Runner.

Section Schedules.

Variable w : World.
Variable latestGo : bool.

Lemma start_Inv (n : Z) (progs : list string) :
  Inv w latestGo (tasks progs)
      (errgroup.sem (errgroup.SetLimit errgroup.zero n)) (start n progs).
Proof.
  unfold Inv, start, errgroup.SetLimit; cbn [group pending running reports map app].
  destruct (n <? 0)%Z eqn:E; cbn; rewrite ?app_nil_r;
    repeat split; auto using Permutation_refl.
  apply Z.ltb_ge in E. lia.
Qed.

(** The tasks can always be run one after the other, unless the limit is
    zero. *)
Lemma run_sequential (ps : list Task) :
  forall (g : errgroup.Group) (rs : list (nat * Report)),
    roomy g -> errgroup.wg g = 0 ->
    exists g',
      run w latestGo (sequential ps) (mkRun g ps [] rs)
      = Some (mkRun g' [] [] (rs ++ map (report_of w latestGo) ps)%list)
      /\ errgroup.wg g' = 0.
Proof.
  induction ps as [|t ps IH]; intros g rs Hroom Hwg.
  - exists g. cbn. rewrite app_nil_r. auto.
  - cbn [sequential flat_map app run step pending group].
    unfold errgroup.Go, errgroup.ready. rewrite Hwg.
    assert (Hr : match errgroup.sem g with
                 | Some n => (Z.of_nat 0 <? n)%Z
                 | None => true
                 end = true).
    { unfold roomy in Hroom. destruct (errgroup.sem g); [|reflexivity].
      apply Z.ltb_lt. lia. }
    rewrite Hr. cbn [running]. rewrite take_head. cbn [group pending reports].
    destruct (IH (errgroup.done (errgroup.mkGroup (errgroup.sem g) 1 (errgroup.err g))
                    (snd (goFunc w latestGo (fst t) (snd t))))
                 (rs ++ [(fst t, goFunc w latestGo (fst t) (snd t))])%list)
      as (g' & Hrun & Hwg'); [exact Hroom | reflexivity |].
    exists g'. split; [|exact Hwg'].
    unfold sequential in Hrun. rewrite Hrun, <- app_assoc. reflexivity.
Qed.

(** Without a limit the loop can start every task before any returns. *)
Lemma run_starts_unlimited (ps : list Task) :
  forall (g : errgroup.Group) (rs : list Task) (reps : list (nat * Report)),
    errgroup.sem g = None ->
    exists g',
      run w latestGo (map (fun _ => Start) ps) (mkRun g ps rs reps)
      = Some (mkRun g' [] (rev ps ++ rs)%list reps)
      /\ errgroup.sem g' = None.
Proof.
  induction ps as [|t ps IH]; intros g rs reps Hsem.
  - exists g. auto.
  - cbn [map run step pending group]. unfold errgroup.Go, errgroup.ready.
    rewrite Hsem. cbn [group running reports].
    destruct (IH (errgroup.mkGroup None (S (errgroup.wg g)) (errgroup.err g))
                 (t :: rs) reps eq_refl) as (g' & Hrun & Hs).
    exists g'. rewrite Hrun. cbn [rev]. rewrite <- app_assoc. auto.
Qed.

End Schedules.

(** ** No task is left behind *)

Section Progress.

Variable w : World.
Variable latestGo : bool.

Lemma run_app (a b : list Action) (s : Run) :
  run w latestGo (a ++ b) s
  = match run w latestGo a s with
    | Some s' => run w latestGo b s'
    | None => None
    end.
Proof.
  revert s. induction a as [|x a IH]; intros s; cbn; [reflexivity|].
  destruct (step w latestGo x s); [apply IH | reflexivity].
Qed.

(** The goroutines that are running can return, one after the other. *)
Lemma run_finish_running (rs : list Task) :
  forall (g : errgroup.Group) (ps : list Task) (reps : list (nat * Report)),
    errgroup.wg g = List.length rs ->
    exists g',
      run w latestGo (map (fun t => Finish (fst t)) rs) (mkRun g ps rs reps)
      = Some (mkRun g' ps [] (reps ++ map (report_of w latestGo) rs)%list)
      /\ errgroup.wg g' = 0 /\ errgroup.sem g' = errgroup.sem g.
Proof.
  induction rs as [|t rs IH]; intros g ps reps Hwg.
  - exists g. cbn. rewrite app_nil_r. auto.
  - cbn [map run step running]. rewrite take_head. cbn [group pending reports].
    destruct (IH (errgroup.done g (snd (goFunc w latestGo (fst t) (snd t)))) ps
                 (reps ++ [(fst t, goFunc w latestGo (fst t) (snd t))])%list)
      as (g' & Hrun & Hwg' & Hsem).
    { cbn. rewrite Hwg. reflexivity. }
    exists g'. rewrite Hrun, <- app_assoc. auto.
Qed.

(** From any state of a run whose limit is not zero, the run can come to
    its end: there is no deadlock. *)
Lemma run_can_finish (s : Run) :
  errgroup.wg (group s) = List.length (running s) -> roomy (group s) ->
  exists sched s',
    run w latestGo sched s = Some s'
    /\ pending s' = [] /\ running s' = [] /\ errgroup.wg (group s') = 0.
Proof.
  destruct s as [g ps rs reps]; cbn [group pending running reports].
  intros Hwg Hroom.
  destruct (run_finish_running rs g ps reps Hwg) as (g1 & Hrun1 & Hwg1 & Hsem1).
  destruct (run_sequential w latestGo ps g1
              (reps ++ map (report_of w latestGo) rs)%list)
    as (g2 & Hrun2 & Hwg2); [|exact Hwg1|].
  { unfold roomy in *. now rewrite Hsem1. }
  exists (map (fun t => Finish (fst t)) rs ++ sequential ps)%list.
  eexists. rewrite run_app, Hrun1, Hrun2. auto.
Qed.

(** With a limit of zero nothing ever starts. *)
Lemma run_limit_zero (progs : list string) (sched : list Action) (s : Run) :
  run w latestGo sched (start 0 progs) = Some s ->
  sched = [] /\ s = start 0 progs.
Proof.
  destruct sched as [|a sched]; cbn [run]; [now intros [= <-]|].
  destruct a as [|gid]; cbn; [|discriminate].
  destruct (tasks progs); discriminate.
Qed.

End Progress.

(** ** What [eg.Wait()] returns, and when *)

Lemma installer_run_spec (w : World) (sched : list Action) (n : Z) (lg : bool)
      (s : Run) (r : option error) :
  installer_run w sched n lg = Some (Some s, r) ->
  exists progs,
    listPrograms w (gobin w) = Ok progs
    /\ run w lg sched (start n progs) = Some s
    /\ pending s = [] /\ running s = []
    /\ Permutation (reports s) (map (report_of w lg) (tasks progs))
    /\ r = first_error (map (fun x => snd (snd x)) (reports s)).
Proof.
  unfold installer_run.
  destruct (gobin w =? EmptyString); [discriminate|].
  destruct (listPrograms w (gobin w)) as [progs|e]; [|discriminate].
  fold (start n progs).
  destruct (run w lg sched (start n progs)) as [s1|] eqn:R; [|discriminate].
  destruct (pending s1) eqn:Ep; [|discriminate].
  unfold errgroup.Wait.
  destruct (errgroup.wg (group s1)) eqn:Ew; [|discriminate].
  intros [= <- <-]. exists progs.
  destruct (run_Inv _ _ _ _ _ _ _ (start_Inv w lg n progs) R)
    as (HP & Hwg & _ & _ & Herr).
  rewrite Ew in Hwg. symmetry in Hwg. apply length_zero_iff_nil in Hwg.
  rewrite Hwg, Ep in HP. cbn [map] in HP. rewrite !app_nil_r in HP.
  repeat split; auto.
Qed.

Lemma installer_run_sequential (w : World) (n : Z) (lg : bool)
      (progs : list string) :
  gobin w <> EmptyString -> listPrograms w (gobin w) = Ok progs -> n <> 0%Z ->
  exists s r,
    installer_run w (sequential (tasks progs)) n lg = Some (Some s, r)
    /\ reports s = map (report_of w lg) (tasks progs).
Proof.
  intros Hdir Hlist Hn. unfold installer_run.
  apply String.eqb_neq in Hdir. rewrite Hdir, Hlist.
  destruct (run_sequential w lg (tasks progs)
              (errgroup.SetLimit errgroup.zero n) [])
    as (g' & Hrun & Hwg).
  - unfold roomy, errgroup.SetLimit.
    destruct (n <? 0)%Z eqn:E; cbn; [exact I|]. apply Z.ltb_ge in E. lia.
  - unfold errgroup.SetLimit. destruct (n <? 0)%Z; reflexivity.
  - rewrite Hrun. cbn [pending group]. unfold errgroup.Wait. rewrite Hwg.
    eexists _, _. split; reflexivity.
Qed.

(** Whatever has been scheduled so far, a run whose limit is not zero can
    be scheduled to its end, where [eg.Wait()] returns. *)
Lemma installer_run_no_deadlock (w : World) (sched : list Action) (n : Z)
      (lg : bool) (progs : list string) (s : Run) :
  gobin w <> EmptyString -> listPrograms w (gobin w) = Ok progs -> n <> 0%Z ->
  run w lg sched (start n progs) = Some s ->
  exists sched' s' r,
    installer_run w (sched ++ sched') n lg = Some (Some s', r).
Proof.
  intros Hdir Hl Hn Hrun.
  pose proof (run_Inv w lg _ _ _ _ _ (start_Inv w lg n progs) Hrun)
    as (_ & Hwg & Hsem & _ & _).
  destruct (run_can_finish w lg s Hwg) as (sched' & s' & Hrun' & Hp & _ & Hwg').
  { unfold roomy. rewrite Hsem. unfold errgroup.SetLimit.
    destruct (n <? 0)%Z eqn:E; cbn; [exact I|]. apply Z.ltb_ge in E. lia. }
  exists sched', s', (errgroup.err (group s')).
  unfold installer_run. apply String.eqb_neq in Hdir. rewrite Hdir, Hl.
  fold (start n progs). rewrite run_app, Hrun, Hrun', Hp.
  unfold errgroup.Wait. now rewrite Hwg'.
Qed.

(** With a limit of zero and a program to run, [installer] never returns. *)
Lemma installer_run_limit_zero (w : World) (sched : list Action) (lg : bool)
      (p : string) (progs : list string) :
  gobin w <> EmptyString -> listPrograms w (gobin w) = Ok (p :: progs) ->
  installer_run w sched 0 lg = None.
Proof.
  intros Hdir Hl. unfold installer_run.
  apply String.eqb_neq in Hdir. rewrite Hdir, Hl. fold (start 0 (p :: progs)).
  destruct (run w lg sched (start 0 (p :: progs))) as [s|] eqn:R; [|reflexivity].
  apply run_limit_zero in R as [_ ->]. reflexivity.
Qed.

(** ** One task, case by case *)

Lemma latest_events (w : World) (gid : nat) (pkg : string) :
  fst (latest w gid pkg)
  = [Command ["go"; "list"; "-m"; "-json"; pkg ++ "@latest"]].
Proof.
  unfold latest. destruct (CombinedOutput w gid _) as [out [e|]]; [reflexivity|].
  destruct (json_Unmarshal w out); reflexivity.
Qed.

Section OneTask.

Variable w : World.
Variable lg : bool.
Variable gid : nat.
Variable ff : string.
Variable info : BuildInfo.
Hypothesis Hread : buildinfo_ReadFile w ff = Ok info.

Lemma goFunc_pinned :
  isSpecific (module.Version (Main info)) = true ->
  goFunc w lg gid ff = ([skipLine info], None).
Proof. intros H. unfold goFunc. rewrite Hread. cbn zeta. now rewrite H. Qed.

Lemma goFunc_canceled (e : error) :
  isSpecific (module.Version (Main info)) = false ->
  resolution w gid info = Err e -> errors_Is_Canceled e = true ->
  goFunc w lg gid ff = ([listCommand info], None).
Proof.
  intros Hn Hres Hc. unfold goFunc. rewrite Hread. cbn zeta. rewrite Hn.
  unfold resolution in Hres.
  pose proof (latest_events w gid (module.Path (Main info))) as Hev.
  destruct (latest w gid (module.Path (Main info))) as [ev r].
  cbn in Hres, Hev. subst. now rewrite Hc.
Qed.

Lemma goFunc_resolved (target : string) :
  isSpecific (module.Version (Main info)) = false ->
  resolution w gid info = Ok target ->
  goFunc w lg gid ff
  = if warranted w lg info target
    then ([listCommand info; arrowLine info target; installCommand info],
          installResult w gid info)
    else ([listCommand info; alreadyLine info], None).
Proof.
  intros Hn Hres. unfold goFunc. rewrite Hread. cbn zeta. rewrite Hn.
  unfold resolution in Hres.
  pose proof (latest_events w gid (module.Path (Main info))) as Hev.
  destruct (latest w gid (module.Path (Main info))) as [ev r].
  cbn in Hres, Hev. subst. unfold warranted, installResult. cbn zeta.
  destruct (negb (lg && negb (runtime_Version w =? GoVersion info))
            && negb (negb (target =? module.Version (Main info)))); cbn [negb].
  - reflexivity.
  - destruct (CombinedOutput w gid _) as [out [e|]]; reflexivity.
Qed.

Lemma goFunc_unresolved (e : error) :
  isSpecific (module.Version (Main info)) = false ->
  resolution w gid info = Err e -> errors_Is_Canceled e = false ->
  goFunc w lg gid ff
  = if warranted w lg info "?"
    then ([listCommand info; Printf "%s\n" [E_ e]; arrowLine info "?";
           installCommand info],
          installResult w gid info)
    else ([listCommand info; Printf "%s\n" [E_ e]; alreadyLine info], None).
Proof.
  intros Hn Hres Hc. unfold goFunc. rewrite Hread. cbn zeta. rewrite Hn.
  unfold resolution in Hres.
  pose proof (latest_events w gid (module.Path (Main info))) as Hev.
  destruct (latest w gid (module.Path (Main info))) as [ev r].
  cbn in Hres, Hev. subst. rewrite Hc. unfold warranted, installResult. cbn zeta.
  destruct (negb (lg && negb (runtime_Version w =? GoVersion info))
            && negb (negb ("?" =? module.Version (Main info)))); cbn [negb].
  - reflexivity.
  - destruct (CombinedOutput w gid _) as [out [e'|]]; reflexivity.
Qed.

End OneTask.

Lemma goFunc_read_error (w : World) (lg : bool) (gid : nat) (ff : string)
      (e : error) :
  buildinfo_ReadFile w ff = Err e -> goFunc w lg gid ff = ([], Some e).
Proof. intros H. unfold goFunc. now rewrite H. Qed.

Lemma warranted_false (w : World) (lg : bool) (info : BuildInfo) (target : string) :
  warranted w lg info target = false
  <-> module.Version (Main info) = target
      /\ (lg = false \/ GoVersion info = runtime_Version w).
Proof.
  unfold warranted. cbn zeta.
  destruct (target =? module.Version (Main info)) eqn:Et;
    [apply String.eqb_eq in Et | apply String.eqb_neq in Et];
    destruct (runtime_Version w =? GoVersion info) eqn:Eg;
    [apply String.eqb_eq in Eg | apply String.eqb_neq in Eg
     | apply String.eqb_eq in Eg | apply String.eqb_neq in Eg];
    destruct lg; cbn; split; try discriminate; try tauto; try (intuition congruence).
Qed.

Lemma outcome_install (pre : list Event) (info : BuildInfo) (r : option error) :
  outcome ((pre ++ [installCommand info])%list, r)
  = Some (match r with None => Upgraded | Some _ => InstallFailed end).
Proof.
  unfold outcome. cbn [fst snd]. rewrite map_app. cbn [map]. rewrite last_last.
  destruct r; reflexivity.
Qed.

(** ** The classifier *)

Lemma Prerelease_valid (v : string) :
  semver.Prerelease v <> EmptyString -> semver.IsValid v = true.
Proof.
  unfold semver.Prerelease, semver.IsValid.
  destruct (semver.parse v); [reflexivity | intros H; now elim H].
Qed.

(** C3: [isSpecific v] is true exactly when [v] is the sentinel "(devel)" of
    a local build or a valid semantic version whose pre-release part is not
    empty, and false for every other string; it is a total function.  The
    valid versions with a pre-release are those of the grammar: "v", three
    numerals separated by dots, a hyphen and the pre-release identifiers,
    then possibly build metadata.  [isSpecific] is true on "(devel)" and on
    the pseudo-version "v1.2.3-0.20210101000000-abcdef123456", false on
    "v1.2.3", on "not-a-version" and on the empty string. *)
Theorem isSpecific_spec :
  (forall v : string,
      isSpecific v = true
      <-> v = "(devel)"
          \/ (semver.IsValid v = true /\ semver.Prerelease v <> EmptyString))
  /\ (forall v : string,
         isSpecific v = false
         <-> v <> "(devel)"
             /\ ~ (semver.IsValid v = true /\ semver.Prerelease v <> EmptyString))
  /\ (forall v : string,
         isSpecific v = true <-> v = "(devel)" \/ Grammar.pinned v)
  /\ isSpecific "(devel)" = true
  /\ isSpecific "v1.2.3-0.20210101000000-abcdef123456" = true
  /\ isSpecific "v1.2.3" = false
  /\ isSpecific "not-a-version" = false
  /\ isSpecific EmptyString = false.
Proof.
  assert (H : forall v : string,
             isSpecific v = true
             <-> v = "(devel)"
                 \/ (semver.IsValid v = true
                     /\ semver.Prerelease v <> EmptyString)).
  { intros v. unfold isSpecific.
    destruct (v =? "(devel)") eqn:Ed;
      [apply String.eqb_eq in Ed | apply String.eqb_neq in Ed].
    - split; auto.
    - destruct (semver.IsValid v) eqn:Ev; cbn [andb].
      + destruct (semver.Prerelease v =? EmptyString) eqn:Ep;
          [apply String.eqb_eq in Ep | apply String.eqb_neq in Ep]; cbn [negb].
        * split; [discriminate | intros [?|[_ ?]]; congruence].
        * split; auto.
      + split; [discriminate | intros [?|[? _]]; congruence]. }
  split; [exact H|]. split; [|split; [|repeat split]].
  - intros v. specialize (H v). destruct (isSpecific v).
    + split; [discriminate|]. intros [Hd Hs]. destruct H as [H _].
      destruct (H eq_refl); tauto.
    + split; [|reflexivity]. intros _. destruct H as [_ H].
      split; intros C; [assert (false = true) by (apply H; auto)
                       | assert (false = true) by (apply H; auto)]; discriminate.
  - intros v. rewrite (H v), (pinned_iff v). reflexivity.
Qed.

(** ** Pinned programs *)

(** C8: a program whose current version is pinned is reported with the line
    "skip" and its task returns at once: no command is run for it, neither
    the resolution nor the install, and the task returns no error. *)
Theorem pinned_is_skipped (w : World) (lg : bool) (gid : nat) (ff : string)
        (info : BuildInfo) :
  buildinfo_ReadFile w ff = Ok info ->
  isSpecific (module.Version (Main info)) = true ->
  fst (goFunc w lg gid ff) = [skipLine info]
  /\ snd (goFunc w lg gid ff) = None
  /\ outcome (goFunc w lg gid ff) = Some SkippedPinned
  /\ resolves (fst (goFunc w lg gid ff)) = false
  /\ installs (fst (goFunc w lg gid ff)) = false
  /\ (forall argv, ~ In (Command argv) (fst (goFunc w lg gid ff))).
Proof.
  intros Hread Hpin. rewrite (goFunc_pinned w lg gid ff info Hread Hpin).
  repeat split. intros argv [H|[]]. discriminate H.
Qed.

Lemma pinned_is_skipped_witness :
  outcome (goFunc (worldOf [devel "c"] "go1.21.0" 4) true 0
                  (gobinDir ++ "/c")) = Some SkippedPinned.
Proof.
  apply (pinned_is_skipped (worldOf [devel "c"] "go1.21.0" 4) true 0
           (gobinDir ++ "/c") (infoAt "c" "(devel)" "go1.21.0"));
    reflexivity.
Defined.

(** ** The decision *)

(** C4: for a program that is not pinned and whose target was resolved, the
    decision is "already latest", with no install, exactly when the current
    version is the target and either [-go] was not given or the program was
    built with the running toolchain.  In every other case the install
    command is run, at "@latest"; this includes a program whose version is
    the target but whose toolchain differs. *)
Theorem decision_spec (w : World) (lg : bool) (gid : nat) (ff : string)
        (info : BuildInfo) (target : string) :
  buildinfo_ReadFile w ff = Ok info ->
  isSpecific (module.Version (Main info)) = false ->
  resolution w gid info = Ok target ->
  let r := goFunc w lg gid ff in
  let upToDate := module.Version (Main info) = target
                  /\ (lg = false \/ GoVersion info = runtime_Version w) in
  (outcome r = Some AlreadyLatest <-> upToDate)
  /\ (installs (fst r) = false <-> upToDate)
  /\ (upToDate -> fst r = [listCommand info; alreadyLine info] /\ snd r = None)
  /\ (~ upToDate ->
      fst r = [listCommand info; arrowLine info target; installCommand info]
      /\ (outcome r = Some Upgraded \/ outcome r = Some InstallFailed))
  /\ (module.Version (Main info) = target -> lg = true ->
      GoVersion info <> runtime_Version w ->
      In (Command ["go"; "install"; Path info ++ "@latest"]) (fst r)).
Proof.
  intros Hread Hn Hres r upToDate. subst r.
  rewrite (goFunc_resolved w lg gid ff info Hread target Hn Hres).
  pose proof (warranted_false w lg info target) as Hw. fold upToDate in Hw.
  destruct (warranted w lg info target).
  - assert (Hnot : ~ upToDate) by (intros C; apply Hw in C; discriminate).
    assert (Hout : outcome ([listCommand info; arrowLine info target;
                             installCommand info], installResult w gid info)
                   = Some (match installResult w gid info with
                           | None => Upgraded
                           | Some _ => InstallFailed
                           end))
      by apply (outcome_install [listCommand info; arrowLine info target]).
    cbn [fst snd]. rewrite Hout.
    split; [|split; [|split; [|split]]].
    + split; [|tauto]. destruct (installResult w gid info); discriminate.
    + split; [discriminate | tauto].
    + tauto.
    + intros _. split; [reflexivity|].
      destruct (installResult w gid info); auto.
    + intros _ _ _. cbn. auto.
  - assert (Hyes : upToDate) by (apply Hw; reflexivity).
    cbn [fst snd].
    split; [|split; [|split; [|split]]].
    + split; [tauto | reflexivity].
    + split; [tauto | reflexivity].
    + auto.
    + tauto.
    + intros _ Hlg Hgo. destruct Hyes as [_ [C|C]]; congruence.
Qed.

Lemma decision_spec_witness :
  outcome (goFunc (worldOf [upToDate "b"] "go1.21.0" 4) true 0
                  (gobinDir ++ "/b")) = Some AlreadyLatest.
Proof.
  refine (proj2 (proj1 (decision_spec
                          (worldOf [upToDate "b"] "go1.21.0" 4) true 0
                          (gobinDir ++ "/b") (infoAt "b" "v1.1.0" "go1.21.0")
                          "v1.1.0" _ _ _)) _);
    [reflexivity | reflexivity | reflexivity |].
  split; [reflexivity | right; reflexivity].
Defined.

(** ** The install command *)

(** Goes through the events of a task: [H] says that a command is one of
    them, [Hi] that it is an install. *)
Ltac in_events H Hi :=
  unfold listCommand, installCommand, arrowLine, alreadyLine, skipLine in H;
  cbn [In] in H;
  repeat (destruct H as [H|H];
          [first [discriminate H
                 | injection H as <-; first [reflexivity | discriminate Hi]]
          |]);
  contradiction.

(** C10: whenever a task runs an install, the command is
    [go install <package path>@latest]: its argument is the package path of
    the build information followed by "@latest", whatever the resolved
    target is.  The target only decides whether the command is run and
    appears in the line that is printed; this holds as well when the
    resolution failed and the target is "?". *)
Theorem install_command_spec (w : World) (lg : bool) (gid : nat) (ff : string)
        (info : BuildInfo) :
  buildinfo_ReadFile w ff = Ok info ->
  (forall argv,
      In (Command argv) (fst (goFunc w lg gid ff)) ->
      isInstall (Command argv) = true ->
      argv = ["go"; "install"; Path info ++ "@latest"])
  /\ (forall target,
         isSpecific (module.Version (Main info)) = false ->
         resolution w gid info = Ok target ->
         warranted w lg info target = true ->
         fst (goFunc w lg gid ff)
         = [listCommand info; arrowLine info target;
            Command ["go"; "install"; Path info ++ "@latest"]])
  /\ (forall e,
         isSpecific (module.Version (Main info)) = false ->
         resolution w gid info = Err e -> errors_Is_Canceled e = false ->
         warranted w lg info "?" = true ->
         fst (goFunc w lg gid ff)
         = [listCommand info; Printf "%s\n" [E_ e]; arrowLine info "?";
            Command ["go"; "install"; Path info ++ "@latest"]]).
Proof.
  intros Hread. split; [|split].
  - intros argv Hin Hinst.
    destruct (isSpecific (module.Version (Main info))) eqn:Hp.
    + rewrite (goFunc_pinned w lg gid ff info Hread Hp) in Hin.
      destruct Hin as [H|[]]; discriminate H.
    + destruct (resolution w gid info) as [target|e] eqn:Hres.
      * rewrite (goFunc_resolved w lg gid ff info Hread target Hp Hres) in Hin.
        destruct (warranted w lg info target); in_events Hin Hinst.
      * destruct (errors_Is_Canceled e) eqn:Hc.
        -- rewrite (goFunc_canceled w lg gid ff info Hread e Hp Hres Hc) in Hin.
           in_events Hin Hinst.
        -- rewrite (goFunc_unresolved w lg gid ff info Hread e Hp Hres Hc) in Hin.
           destruct (warranted w lg info "?"); in_events Hin Hinst.
  - intros target Hp Hres Hw.
    rewrite (goFunc_resolved w lg gid ff info Hread target Hp Hres), Hw.
    reflexivity.
  - intros e Hp Hres Hc Hw.
    rewrite (goFunc_unresolved w lg gid ff info Hread e Hp Hres Hc), Hw.
    reflexivity.
Qed.

Lemma install_command_spec_witness :
  fst (goFunc (worldOf [behind "a"] "go1.21.0" 4) false 0 (gobinDir ++ "/a"))
  = [listCommand (infoAt "a" "v1.0.0" "go1.21.0");
     arrowLine (infoAt "a" "v1.0.0" "go1.21.0") "v1.1.0";
     Command ["go"; "install"; "example.com/a/cmd/a@latest"]].
Proof.
  refine (proj1 (proj2 (install_command_spec
                          (worldOf [behind "a"] "go1.21.0" 4) false 0
                          (gobinDir ++ "/a") (infoAt "a" "v1.0.0" "go1.21.0")
                          _))
                "v1.1.0" _ _ _); reflexivity.
Defined.

(** ** A resolution that fails *)

(** C1, as stated, at a program at v1.0.0 whose module cannot be listed:
    the resolution fails with an exit status, not with the cancellation;
    the install is run all the same and the task reports an upgrade, so the
    decision is not [ResolveFailed] and it is not true that no install is
    attempted. *)
Lemma resolve_failed_counterexample :
  let w := worldOf [unlisted "d"] "go1.21.0" 4 in
  let info := infoAt "d" "v1.0.0" "go1.21.0" in
  let r := goFunc w false 0 (gobinDir ++ "/d") in
  buildinfo_ReadFile w (gobinDir ++ "/d") = Ok info
  /\ isSpecific (module.Version (Main info)) = false
  /\ (exists e, resolution w 0 info = Err e /\ errors_Is_Canceled e = false)
  /\ installs (fst r) = true
  /\ outcome r = Some Upgraded
  /\ ~ (outcome r = Some ResolveFailed /\ installs (fst r) = false).
Proof.
  cbv zeta. split; [reflexivity|]. split; [reflexivity|].
  split; [eexists; split; reflexivity|].
  split; [reflexivity|]. split; [reflexivity|].
  intros [H _]. discriminate H.
Qed.

(** C1, amended: when the resolution of a program fails for another reason
    than the cancellation, the task prints the error, takes "?" as the
    target and goes on to the decision with it, as for any other target.
    There is no decision [ResolveFailed]: unless the current version is
    itself "?" (and no toolchain upgrade is due), the line "-> ?" is printed
    and the install at "@latest" is run, and the task reports [Upgraded] or
    [InstallFailed].  The run goes on: in a run that comes to its end every
    program has its report, this one like the others. *)
Theorem resolve_failed_spec (w : World) (lg : bool) (gid : nat) (ff : string)
        (info : BuildInfo) (e : error) :
  buildinfo_ReadFile w ff = Ok info ->
  isSpecific (module.Version (Main info)) = false ->
  resolution w gid info = Err e -> errors_Is_Canceled e = false ->
  let r := goFunc w lg gid ff in
  (warranted w lg info "?" = true ->
   fst r = [listCommand info; Printf "%s\n" [E_ e]; arrowLine info "?";
            installCommand info]
   /\ snd r = installResult w gid info
   /\ installs (fst r) = true
   /\ (outcome r = Some Upgraded \/ outcome r = Some InstallFailed))
  /\ (warranted w lg info "?" = false ->
      fst r = [listCommand info; Printf "%s\n" [E_ e]; alreadyLine info]
      /\ snd r = None /\ outcome r = Some AlreadyLatest)
  /\ (module.Version (Main info) <> "?" -> warranted w lg info "?" = true)
  /\ outcome r <> Some ResolveFailed
  /\ (forall sched n s res,
         installer_run w sched n lg = Some (Some s, res) ->
         exists progs,
           listPrograms w (gobin w) = Ok progs
           /\ forall t, In t (tasks progs) -> In (report_of w lg t) (reports s)).
Proof.
  intros Hread Hp Hres Hc r. subst r.
  rewrite (goFunc_unresolved w lg gid ff info Hread e Hp Hres Hc).
  assert (Hout : outcome ([listCommand info; Printf "%s\n" [E_ e];
                           arrowLine info "?"; installCommand info],
                          installResult w gid info)
                 = Some (match installResult w gid info with
                         | None => Upgraded
                         | Some _ => InstallFailed
                         end))
    by apply (outcome_install [listCommand info; Printf "%s\n" [E_ e];
                               arrowLine info "?"]).
  split; [|split; [|split; [|split]]].
  - intros ->. cbn [fst snd]. rewrite Hout. repeat split.
    destruct (installResult w gid info); auto.
  - intros ->. repeat split.
  - intros Hv. destruct (warranted w lg info "?") eqn:Hw; [reflexivity|].
    apply warranted_false in Hw. tauto.
  - destruct (warranted w lg info "?").
    + rewrite Hout. destruct (installResult w gid info); discriminate.
    + discriminate.
  - intros sched n s res Hrun.
    destruct (installer_run_spec _ _ _ _ _ _ Hrun)
      as (progs & Hl & _ & _ & _ & HP & _).
    exists progs. split; [exact Hl|]. intros t Ht.
    apply Permutation_sym in HP. apply (Permutation_in _ HP).
    now apply in_map.
Qed.

Lemma resolve_failed_spec_witness :
  installs (fst (goFunc (worldOf [unlisted "d"] "go1.21.0" 4) false 0
                        (gobinDir ++ "/d"))) = true.
Proof.
  destruct (resolve_failed_spec (worldOf [unlisted "d"] "go1.21.0" 4) false 0
              (gobinDir ++ "/d") (infoAt "d" "v1.0.0" "go1.21.0")
              (Errorf "go list (%w):\n%s"
                      [E_ (errorString "exit status 1");
                       S_ "no matching versions"]))
    as [H _]; [reflexivity | reflexivity | reflexivity | reflexivity |].
  apply H. reflexivity.
Defined.

(** ** One report for each program *)

Lemma map_fst_tasks (progs : list string) :
  map fst (tasks progs) = seq 0 (List.length progs).
Proof.
  unfold tasks. generalize 0. induction progs as [|p progs IH]; intros a.
  - reflexivity.
  - cbn. now rewrite IH.
Qed.

Lemma NoDup_fst_functional (A B : Type) (l : list (A * B)) (a : A) (b b' : B) :
  NoDup (map fst l) -> In (a, b) l -> In (a, b') l -> b = b'.
Proof.
  induction l as [|[x y] l IH]; cbn; [tauto|].
  intros Hnd. inversion Hnd as [|? ? Hx Hl]; subst.
  intros [H1|H1] [H2|H2].
  - congruence.
  - injection H1 as -> ->. elim Hx. now apply (in_map fst) in H2.
  - injection H2 as -> ->. elim Hx. now apply (in_map fst) in H1.
  - now apply IH.
Qed.

Lemma in_outcomes (s : Run) (gid : nat) (d : Decision) :
  In (gid, d) (outcomes s)
  <-> exists rep, In (gid, rep) (reports s) /\ outcome rep = Some d.
Proof.
  unfold outcomes. rewrite in_flat_map. split.
  - intros ([g rep] & Hin & H). cbn [fst snd] in H.
    destruct (outcome rep) as [d'|] eqn:E; [|contradiction].
    destruct H as [H|[]]. injection H as -> ->. eauto.
  - intros (rep & Hin & E). exists (gid, rep). split; [exact Hin|].
    cbn [fst snd]. rewrite E. now left.
Qed.

Lemma NoDup_outcomes (s : Run) :
  NoDup (map fst (reports s)) -> NoDup (map fst (outcomes s)).
Proof.
  unfold outcomes. induction (reports s) as [|[g rep] l IH]; cbn [map flat_map].
  - intros _. constructor.
  - intros Hnd. inversion Hnd as [|? ? Hg Hl]; subst. cbn [fst snd].
    destruct (outcome rep); cbn [app map fst]; [|now apply IH].
    constructor; [|now apply IH].
    intros C. apply Hg. apply in_map_iff in C as ([g' d'] & <- & Hin).
    apply in_flat_map in Hin as ([g2 rep2] & Hin2 & H). cbn [fst snd] in H.
    destruct (outcome rep2); [|contradiction]. destruct H as [H|[]].
    injection H as <- _. now apply (in_map fst) in Hin2.
Qed.

(** What a task reports, from its build information and its resolution. *)
Lemma goFunc_outcome (w : World) (lg : bool) (gid : nat) (ff : string)
      (info : BuildInfo) :
  buildinfo_ReadFile w ff = Ok info ->
  (cut w gid info -> goFunc w lg gid ff = ([listCommand info], None)
                     /\ outcome (goFunc w lg gid ff) = None)
  /\ (~ cut w gid info ->
      exists d, outcome (goFunc w lg gid ff) = Some d
                         /\ (d = SkippedPinned \/ d = AlreadyLatest
                             \/ d = Upgraded \/ d = InstallFailed)).
Proof.
  intros Hread. split.
  - intros (Hp & e & Hres & Hc).
    rewrite (goFunc_canceled w lg gid ff info Hread e Hp Hres Hc). auto.
  - intros Hnot. destruct (isSpecific (module.Version (Main info))) eqn:Hp.
    + rewrite (goFunc_pinned w lg gid ff info Hread Hp).
      exists SkippedPinned. split; [reflexivity | auto].
    + destruct (resolution w gid info) as [target|e] eqn:Hres.
      * rewrite (goFunc_resolved w lg gid ff info Hread target Hp Hres).
        destruct (warranted w lg info target);
          [|exists AlreadyLatest; split; [reflexivity | auto]].
        pose proof (outcome_install [listCommand info; arrowLine info target]
                                    info (installResult w gid info)) as Ho.
        cbn [app] in Ho. rewrite Ho.
        destruct (installResult w gid info); eexists; split; eauto 6.
      * destruct (errors_Is_Canceled e) eqn:Hc.
        -- elim Hnot. split; [exact Hp | eauto].
        -- rewrite (goFunc_unresolved w lg gid ff info Hread e Hp Hres Hc).
           destruct (warranted w lg info "?");
             [|exists AlreadyLatest; split; [reflexivity | auto]].
           pose proof (outcome_install [listCommand info; Printf "%s\n" [E_ e];
                                        arrowLine info "?"]
                                       info (installResult w gid info)) as Ho.
           cbn [app] in Ho. rewrite Ho.
           destruct (installResult w gid info); eexists; split; eauto 6.
Qed.

Lemma reports_of_run (w : World) (sched : list Action) (n : Z) (lg : bool)
      (s : Run) (r : option error) (progs : list string) :
  installer_run w sched n lg = Some (Some s, r) ->
  listPrograms w (gobin w) = Ok progs ->
  NoDup (map fst (reports s))
  /\ List.length (reports s) = List.length progs
  /\ (forall t, In t (tasks progs) -> In (report_of w lg t) (reports s))
  /\ (forall t rep, In t (tasks progs) -> In (fst t, rep) (reports s) ->
                    rep = goFunc w lg (fst t) (snd t)).
Proof.
  intros Hrun Hl.
  destruct (installer_run_spec _ _ _ _ _ _ Hrun)
    as (progs' & Hl' & _ & _ & _ & HP & _).
  rewrite Hl in Hl'. injection Hl' as <-.
  assert (Hfst : map fst (map (report_of w lg) (tasks progs))
                 = seq 0 (List.length progs)).
  { rewrite map_map. cbn [report_of fst]. apply map_fst_tasks. }
  assert (Hnd : NoDup (map fst (reports s))).
  { apply (Permutation_NoDup (l := map fst (map (report_of w lg) (tasks progs)))).
    - apply Permutation_map, Permutation_sym, HP.
    - rewrite Hfst. apply seq_NoDup. }
  split; [exact Hnd|]. split.
  - rewrite (Permutation_length HP), length_map. unfold tasks, Task.
    rewrite length_combine, length_seq. apply Nat.min_id.
  - split.
    + intros t Ht. apply (Permutation_in _ (Permutation_sym HP)).
      now apply in_map.
    + intros t rep Ht Hin.
      apply (NoDup_fst_functional _ _ (reports s) (fst t)); [exact Hnd|exact Hin|].
      apply (Permutation_in _ (Permutation_sym HP)).
      now apply (in_map (report_of w lg)) in Ht.
Qed.

(** C5, as stated, in a GOBIN of two programs, one whose resolution is cut
    by the cancellation and one that is behind: both have build information
    that can be read, the run comes to its end without an error, and there
    is one outcome only, for the second program; the first one returned
    without reporting any. *)
Lemma one_outcome_counterexample :
  let w := worldOf [cutResolving "e"; behind "a"] "go1.21.0" 4 in
  listPrograms w (gobin w) = Ok [gobinDir ++ "/e"; gobinDir ++ "/a"]
  /\ buildinfo_ReadFile w (gobinDir ++ "/e") = Ok (infoAt "e" "v1.0.0" "go1.21.0")
  /\ buildinfo_ReadFile w (gobinDir ++ "/a") = Ok (infoAt "a" "v1.0.0" "go1.21.0")
  /\ exists s,
      installer_run w [Start; Start; Finish 1; Finish 0] 4 false
      = Some (Some s, None)
      /\ outcomes s = [(1, Upgraded)]
      /\ List.length (outcomes s) <> 2
      /\ forall d, ~ In (0, d) (outcomes s).
Proof.
  cbv zeta. split; [reflexivity|]. split; [reflexivity|]. split; [reflexivity|].
  eexists. split; [reflexivity|]. split; [reflexivity|].
  split; [discriminate|]. intros d [H|[]]. discriminate H.
Qed.

(** C5, amended: when the programs of GOBIN can be listed and the limit is
    not zero, the run can always be brought to its end, and at the end of
    any run there is exactly one report for each program, the one of its own
    task, whatever the other tasks did and in whatever order they ran.  A
    program whose build information was read has exactly one outcome
    (skipped as pinned, already latest, upgraded or install failed) unless
    its resolution was cut by the cancellation: that task returns without an
    outcome. *)
Theorem one_outcome_spec (w : World) (n : Z) (lg : bool) (progs : list string) :
  gobin w <> EmptyString -> listPrograms w (gobin w) = Ok progs -> n <> 0%Z ->
  (exists sched s r, installer_run w sched n lg = Some (Some s, r))
  /\ forall sched s r,
      installer_run w sched n lg = Some (Some s, r) ->
      List.length (reports s) = List.length progs
      /\ NoDup (map fst (reports s))
      /\ NoDup (map fst (outcomes s))
      /\ forall gid ff info,
          In (gid, ff) (tasks progs) -> buildinfo_ReadFile w ff = Ok info ->
          In (gid, goFunc w lg gid ff) (reports s)
          /\ (cut w gid info -> forall d, ~ In (gid, d) (outcomes s))
          /\ (~ cut w gid info ->
              exists d,
                outcome (goFunc w lg gid ff) = Some d
                /\ In (gid, d) (outcomes s)
                /\ (forall d', In (gid, d') (outcomes s) -> d' = d)
                /\ (d = SkippedPinned \/ d = AlreadyLatest
                    \/ d = Upgraded \/ d = InstallFailed)).
Proof.
  intros Hdir Hl Hn. split.
  { destruct (installer_run_sequential w n lg progs Hdir Hl Hn)
      as (s & r & Hrun & _). eauto. }
  intros sched s r Hrun.
  destruct (reports_of_run _ _ _ _ _ _ _ Hrun Hl) as (Hnd & Hlen & Hin & Hfun).
  split; [exact Hlen|]. split; [exact Hnd|].
  split; [now apply NoDup_outcomes|].
  intros gid ff info Ht Hread.
  destruct (goFunc_outcome w lg gid ff info Hread) as [Hcut Hrep].
  split; [apply (Hin (gid, ff) Ht)|]. split.
  - intros Hc d Hd. apply in_outcomes in Hd as (rep & Hrepin & Ho).
    rewrite (Hfun (gid, ff) rep Ht Hrepin) in Ho. cbn [fst snd] in Ho.
    destruct (Hcut Hc) as [_ Hnone]. congruence.
  - intros Hc. destruct (Hrep Hc) as (d & Ho & Hd). exists d.
    split; [exact Ho|]. split; [|split; [|exact Hd]].
    + apply in_outcomes. exists (goFunc w lg gid ff).
      split; [apply (Hin (gid, ff) Ht) | exact Ho].
    + intros d' Hd'. apply in_outcomes in Hd' as (rep & Hrepin & Ho').
      rewrite (Hfun (gid, ff) rep Ht Hrepin) in Ho'. cbn [fst snd] in Ho'.
      congruence.
Qed.

Lemma one_outcome_spec_witness :
  exists s,
    installer_run (worldOf [cutResolving "e"; broken "g"; behind "a"] "go1.21.0" 4)
                  [Start; Start; Finish 1; Start; Finish 2; Finish 0] 2 true
    = Some (Some s, Some (Errorf "go install (%s):\n%s"
                                 [E_ (errorString "exit status 1");
                                  S_ "build failed"]))
    /\ List.length (reports s) = 3.
Proof.
  eexists. split; [reflexivity|].
  refine (proj1 (proj2 (one_outcome_spec
                          (worldOf [cutResolving "e"; broken "g"; behind "a"]
                                   "go1.21.0" 4)
                          2 true
                          [gobinDir ++ "/e"; gobinDir ++ "/g"; gobinDir ++ "/a"]
                          _ _ _)
                       [Start; Start; Finish 1; Start; Finish 2; Finish 0] _
                       (Some (Errorf "go install (%s):\n%s"
                                     [E_ (errorString "exit status 1");
                                      S_ "build failed"]))
                       _));
    try reflexivity; discriminate.
Defined.

(** ** Errors and the cancellation *)

Lemma first_error_none (l : list (option error)) :
  (forall r, In r l -> r = None) -> first_error l = None.
Proof.
  induction l as [|r l IH]; intros H; [reflexivity|].
  rewrite (H r (or_introl eq_refl)). cbn. apply IH.
  intros r' Hr'. apply H. now right.
Qed.

(** A resolution cut by the cancellation ends the task without an error. *)
Lemma resolution_cancelled_returns_nil (w : World) (lg : bool) (gid : nat)
      (ff : string) (info : BuildInfo) :
  buildinfo_ReadFile w ff = Ok info -> cut w gid info ->
  snd (goFunc w lg gid ff) = None.
Proof.
  intros Hread (Hp & e & Hres & Hc).
  now rewrite (goFunc_canceled w lg gid ff info Hread e Hp Hres Hc).
Qed.

(** The message of the error of a failed install. *)
Lemma Error_install (e : error) (out : string) :
  Error (Errorf "go install (%s):\n%s" [E_ e; S_ out])
  = "go install (" ++ Error e ++ "):" ++ nl ++ out.
Proof.
  cbn. rewrite append_empty. reflexivity.
Qed.

(** An install cut by the cancellation ends the task with an error, and
    this error is not recognised as the cancellation any more. *)
Lemma install_cancelled_returns_error (w : World) (lg : bool) (gid : nat)
      (ff : string) (info : BuildInfo) (target out : string) (e : error) :
  buildinfo_ReadFile w ff = Ok info ->
  isSpecific (module.Version (Main info)) = false ->
  resolution w gid info = Ok target ->
  warranted w lg info target = true ->
  CombinedOutput w gid ["go"; "install"; Path info ++ "@latest"] = (out, Some e) ->
  errors_Is_Canceled e = true ->
  exists err,
    snd (goFunc w lg gid ff) = Some err
    /\ Error err = "go install (" ++ Error e ++ "):" ++ nl ++ out
    /\ errors_Is_Canceled err = false.
Proof.
  intros Hread Hp Hres Hw Hcmd Hc.
  rewrite (goFunc_resolved w lg gid ff info Hread target Hp Hres), Hw.
  unfold installResult. rewrite Hcmd. eexists. split; [reflexivity|].
  split; [apply Error_install | reflexivity].
Qed.

(** C6, at a GOBIN of two programs where the cancellation is the only thing
    that goes wrong: the resolution of the first is cut, the install of the
    second is cut.  The first task returns nil; the second returns the error
    of its install, [eg.Wait()] returns it once both tasks have returned,
    and [main] prints it and exits with code 1: the error of the cancelled
    install is not suppressed. *)
Theorem cancelled_install_is_returned :
  let w := worldOf [cutResolving "e"; cutInstalling "f"] "go1.21.0" 4 in
  let e := infoAt "e" "v1.0.0" "go1.21.0" in
  let f := infoAt "f" "v1.0.0" "go1.21.0" in
  let err := errorString ("go install (context canceled):" ++ nl) in
  onlyCancelled w
  /\ buildinfo_ReadFile w (gobinDir ++ "/e") = Ok e
  /\ buildinfo_ReadFile w (gobinDir ++ "/f") = Ok f
  /\ goFunc w false 0 (gobinDir ++ "/e") = ([listCommand e], None)
  /\ goFunc w false 1 (gobinDir ++ "/f")
     = ([listCommand f; arrowLine f "v1.1.0"; installCommand f], Some err)
  /\ installer w [Start; Start; Finish 0; Finish 1] 4 false
     = Some ([listCommand e; listCommand f; arrowLine f "v1.1.0";
              installCommand f], Some err)
  /\ errors_Is_Canceled err = false
  /\ main w [Start; Start; Finish 0; Finish 1] (flags 0 false)
     = Some ([listCommand e; listCommand f; arrowLine f "v1.1.0";
              installCommand f; Printf "%s" [S_ (Error err)]], 1%Z).
Proof.
  cbv zeta. split; [|repeat split].
  intros [|[|gid]] argv e; cbn.
  - destruct argv as [|a [|verb argv]]; cbn;
      try destruct (verb =? "list"); cbn; intros [= <-]; reflexivity.
  - destruct argv as [|a [|verb argv]]; cbn;
      try destruct (verb =? "list"); cbn; intros [= <-]; reflexivity.
  - destruct gid; discriminate.
Qed.

(** ** The exit code *)

(** C2, at runs in which the cancellation is the only thing that goes
    wrong.  When it cuts the resolution of the program, the task returns
    nil, [runMain] returns nil and the process ends with code 0 and no
    message.  When it cuts the install, the task returns the error of the
    install, formatted so that it is no longer recognised as the
    cancellation: [runMain] returns it, and [main] prints it and exits with
    code 1, where a graceful cancellation should end with code 0 and
    without a message. *)
Theorem cancelled_install_exit_code :
  let w := worldOf [cutInstalling "f"] "go1.21.0" 4 in
  let f := infoAt "f" "v1.0.0" "go1.21.0" in
  let w' := worldOf [cutResolving "e"] "go1.21.0" 4 in
  let e := infoAt "e" "v1.0.0" "go1.21.0" in
  let err := Errorf "go install (%s):\n%s" [E_ context_Canceled; S_ EmptyString] in
  onlyCancelled w /\ onlyCancelled w'
  /\ buildinfo_ReadFile w (gobinDir ++ "/f") = Ok f
  /\ buildinfo_ReadFile w' (gobinDir ++ "/e") = Ok e
  /\ runMain w' [Start; Finish 0] (flags 0 false)
     = Some ([listCommand e], None)
  /\ main w' [Start; Finish 0] (flags 0 false) = Some ([listCommand e], 0%Z)
  /\ runMain w [Start; Finish 0] (flags 0 false)
     = Some ([listCommand f; arrowLine f "v1.1.0"; installCommand f], Some err)
  /\ errors_Is_Canceled err = false
  /\ Error err = "go install (context canceled):" ++ nl
  /\ main w [Start; Finish 0] (flags 0 false)
     = Some ([listCommand f; arrowLine f "v1.1.0"; installCommand f;
              Printf "%s" [S_ ("go install (context canceled):" ++ nl)]],
             1%Z).
Proof.
  cbv zeta.
  assert (Hcut : forall p,
             snd (listing p) = None \/ snd (listing p) = Some context_Canceled ->
             snd (installing p) = Some context_Canceled ->
             onlyCancelled (worldOf [p] "go1.21.0" 4)).
  { intros p Hl Hi [|gid] argv e; cbn.
    - destruct argv as [|a [|verb argv]]; cbn;
        try destruct (verb =? "list"); cbn;
        try (rewrite Hi; intros [= <-]; reflexivity).
      destruct Hl as [Hl|Hl]; rewrite Hl;
        [discriminate | intros [= <-]; reflexivity].
    - destruct gid; discriminate. }
  split; [apply Hcut; [now left | reflexivity]|].
  split; [apply Hcut; [now right | reflexivity]|].
  repeat split.
Qed.

(** What [main] makes of the result of [runMain]: the process exits with
    code 0, and [main] prints nothing, exactly when [runMain] returns no
    error; with an error the exit code is 1, and the message of the error is
    printed unless the error is the cancellation.  A run in which no task
    returns an error ends with code 0 and without a message, and a task
    whose resolution is cut by the cancellation returns no error. *)
Theorem exit_code_spec :
  (forall r, snd (exit r) = 0%Z <-> r = None)
  /\ (forall e, exit (Some e)
                = (if errors_Is_Canceled e then []
                   else [Printf "%s" [S_ (Error e)]], 1%Z))
  /\ (forall w sched fl ev code,
         main w sched fl = Some (ev, code) ->
         exists ev0 r,
           runMain w sched fl = Some (ev0, r)
           /\ ev = (ev0 ++ fst (exit r))%list /\ code = snd (exit r))
  /\ (forall w lg gid ff info,
         buildinfo_ReadFile w ff = Ok info -> cut w gid info ->
         snd (goFunc w lg gid ff) = None)
  /\ (forall w sched fl dir s r progs,
         showVersion fl = false ->
         os_MkdirTemp w = Ok dir -> os_Chdir w dir = None ->
         installer_run w sched (defaultProcs w (nProcs fl)) (latestGo fl)
         = Some (Some s, r) ->
         listPrograms w (gobin w) = Ok progs ->
         (forall t, In t (tasks progs) ->
                    snd (goFunc w (latestGo fl) (fst t) (snd t)) = None) ->
         r = None /\ main w sched fl = Some (stdout s, 0%Z)).
Proof.
  split; [|split; [|split; [|split]]].
  - intros [e|]; cbn; split; intros H; try discriminate; reflexivity.
  - intros e. unfold exit. destruct (errors_Is_Canceled e); reflexivity.
  - intros w sched fl ev code. unfold main.
    destruct (runMain w sched fl) as [[ev0 r]|]; [|discriminate].
    intros [= <- <-]. eauto.
  - intros w lg gid ff info. apply resolution_cancelled_returns_nil.
  - intros w sched fl dir s r progs Hv Hd Hc Hrun Hl Hnil.
    assert (Hr : r = None).
    { destruct (installer_run_spec _ _ _ _ _ _ Hrun)
        as (progs' & Hl' & _ & _ & _ & HP & ->).
      rewrite Hl in Hl'. injection Hl' as <-.
      apply first_error_none. intros x Hx.
      apply in_map_iff in Hx as ([g rep] & <- & Hin).
      apply (Permutation_in _ HP) in Hin.
      apply in_map_iff in Hin as (t & Ht & Hin).
      injection Ht as <- <-. now apply Hnil. }
    split; [exact Hr|]. subst r.
    unfold main, runMain, installer. rewrite Hv, Hd, Hc, Hrun.
    cbn. now rewrite app_nil_r.
Qed.

Lemma exit_code_spec_witness :
  main (worldOf [cutResolving "e"; devel "c"] "go1.21.0" 4)
       [Start; Finish 0; Start; Finish 1] (flags 0 false)
  = Some ([listCommand (infoAt "e" "v1.0.0" "go1.21.0");
           skipLine (infoAt "c" "(devel)" "go1.21.0")], 0%Z).
Proof.
  refine (proj2 (proj2 (proj2 (proj2 (proj2 exit_code_spec)))
                   (worldOf [cutResolving "e"; devel "c"] "go1.21.0" 4)
                   [Start; Finish 0; Start; Finish 1] (flags 0 false)
                   "/tmp/0" _ None [gobinDir ++ "/e"; gobinDir ++ "/c"]
                   eq_refl eq_refl eq_refl eq_refl eq_refl _)).
  intros t [<-|[<-|[]]]; reflexivity.
Defined.

(** ** The limit of the group *)

(** C7, as stated, at [-j -1] on a machine of 4 processing units and a
    GOBIN of 5 programs: the limit is not 4, the group has no limit at all,
    and the five tasks can run at the same time. *)
Lemma negative_limit_counterexample :
  let w := worldOf [behind "a"; behind "b"; behind "c"; behind "d"; behind "e"]
                   "go1.21.0" 4 in
  let progs := [gobinDir ++ "/a"; gobinDir ++ "/b"; gobinDir ++ "/c";
                gobinDir ++ "/d"; gobinDir ++ "/e"] in
  runtime_NumCPU w = 4%Z
  /\ listPrograms w (gobin w) = Ok progs
  /\ limit w (-1) = None
  /\ limit w (-1) <> Some (runtime_NumCPU w)
  /\ exists s,
      run w false [Start; Start; Start; Start; Start]
          (start (defaultProcs w (-1)) progs) = Some s
      /\ List.length (running s) = 5.
Proof.
  cbv zeta. split; [reflexivity|]. split; [reflexivity|].
  split; [reflexivity|]. split; [discriminate|].
  eexists. split; reflexivity.
Qed.

(** C7, amended: when [-j] is zero the limit of the group is the number of
    processing units; a positive value is the limit itself; in both cases
    the limit is positive and the number of tasks that run at the same time
    never exceeds it.  A negative value is given to the group as it is,
    which means no limit: all the tasks can run at the same time. *)
Theorem limit_spec (w : World) (n : Z) :
  (0 < runtime_NumCPU w)%Z ->
  (n = 0%Z -> limit w n = Some (runtime_NumCPU w))
  /\ ((0 < n)%Z -> limit w n = Some n)
  /\ ((n < 0)%Z -> limit w n = None)
  /\ ((0 <= n)%Z ->
      exists k,
        limit w n = Some k /\ (0 < k)%Z
        /\ forall lg progs sched s,
            run w lg sched (start (defaultProcs w n) progs) = Some s ->
            (Z.of_nat (List.length (running s)) <= k)%Z)
  /\ ((n < 0)%Z ->
      forall lg progs,
      exists s,
        run w lg (map (fun _ => Start) (tasks progs))
            (start (defaultProcs w n) progs) = Some s
        /\ running s = rev (tasks progs)).
Proof.
  intros Hcpu. unfold limit, defaultProcs, errgroup.SetLimit.
  split; [|split; [|split; [|split]]].
  - intros ->. cbn. destruct (runtime_NumCPU w <? 0)%Z eqn:E; [|reflexivity].
    apply Z.ltb_lt in E. lia.
  - intros Hn. destruct (n =? 0)%Z eqn:E0; [apply Z.eqb_eq in E0; lia|].
    destruct (n <? 0)%Z eqn:E; [apply Z.ltb_lt in E; lia | reflexivity].
  - intros Hn. destruct (n =? 0)%Z eqn:E0; [apply Z.eqb_eq in E0; lia|].
    destruct (n <? 0)%Z eqn:E; [reflexivity | apply Z.ltb_ge in E; lia].
  - intros Hn.
    exists (if (n =? 0)%Z then runtime_NumCPU w else n).
    assert (Hpos : (0 < (if (n =? 0)%Z then runtime_NumCPU w else n))%Z).
    { destruct (n =? 0)%Z eqn:E0; [exact Hcpu|]. apply Z.eqb_neq in E0. lia. }
    assert (Hlim : errgroup.sem
                     (errgroup.SetLimit errgroup.zero
                        (if (n =? 0)%Z then runtime_NumCPU w else n))
                   = Some (if (n =? 0)%Z then runtime_NumCPU w else n)).
    { unfold errgroup.SetLimit.
      destruct ((if (n =? 0)%Z then runtime_NumCPU w else n) <? 0)%Z eqn:E;
        [apply Z.ltb_lt in E; lia | reflexivity]. }
    split; [exact Hlim|]. split; [exact Hpos|].
    intros lg progs sched s Hrun.
    pose proof (run_Inv w lg _ _ _ _ _
                  (start_Inv w lg (if (n =? 0)%Z then runtime_NumCPU w else n)
                             progs) Hrun) as (_ & _ & _ & Hcap & _).
    rewrite Hlim in Hcap. exact Hcap.
  - intros Hn lg progs.
    destruct (n =? 0)%Z eqn:E0; [apply Z.eqb_eq in E0; lia|].
    unfold start, errgroup.SetLimit.
    destruct (n <? 0)%Z eqn:E; [|apply Z.ltb_ge in E; lia].
    destruct (run_starts_unlimited w lg (tasks progs)
                (errgroup.mkGroup None (errgroup.wg errgroup.zero)
                                  (errgroup.err errgroup.zero)) [] [] eq_refl)
      as (g' & Hrun & _).
    eexists. split; [exact Hrun|]. cbn. now rewrite app_nil_r.
Qed.

Lemma limit_spec_witness :
  limit (worldOf [behind "a"] "go1.21.0" 4) 0 = Some 4%Z.
Proof.
  refine (proj1 (limit_spec (worldOf [behind "a"] "go1.21.0" 4) 0 _) eq_refl).
  reflexivity.
Defined.

(** ** Running twice *)

Lemma map_snd_tasks (progs : list string) : map snd (tasks progs) = progs.
Proof.
  unfold tasks. generalize 0. induction progs as [|p progs IH]; intros a.
  - reflexivity.
  - cbn. now rewrite IH.
Qed.

Lemma find_task (l : list Task) (t : Task) :
  NoDup (map snd l) -> In t l ->
  find (fun t' : Task => snd t' =? snd t) l = Some t.
Proof.
  induction l as [|x l IH]; cbn; [tauto|].
  intros Hnd. inversion Hnd as [|? ? Hx Hl]; subst. intros [->|Hin].
  - now rewrite String.eqb_refl.
  - destruct (snd x =? snd t) eqn:E; [|now apply IH].
    apply String.eqb_eq in E. elim Hx. rewrite E. now apply in_map.
Qed.

(** The second run sees the same directory and the same resolver. *)
Lemma afterRun_listPrograms (w : World) (lg : bool) (toolchain : string) :
  listPrograms (afterRun w lg toolchain) (gobin (afterRun w lg toolchain))
  = listPrograms w (gobin w).
Proof. reflexivity. Qed.

Lemma afterRun_resolution (w : World) (lg : bool) (toolchain : string)
      (gid : nat) (info : BuildInfo) (target : string) :
  resolution (afterRun w lg toolchain) gid (reinstalled info target toolchain)
  = resolution w gid info.
Proof. reflexivity. Qed.

(** C9, as stated, at two programs that the first run upgrades.  The module
    of the first has a release candidate as its latest version: once
    installed the program is pinned, and the second run skips it.  The
    second is reinstalled by a [go] command of 1.21 while the running
    toolchain is 1.22 and [-go] is given: the second run installs it again.
    In neither case is the second decision "already latest". *)
Lemma second_run_counterexample :
  let w := worldOf [candidate "t"] "go1.21.0" 4 in
  let w' := worldOf [behind "a"] "go1.22.0" 4 in
  (exists s1 s2,
      installer_run w [Start; Finish 0] 4 false = Some (Some s1, None)
      /\ outcomes s1 = [(0, Upgraded)]
      /\ buildinfo_ReadFile (afterRun w false "go1.21.0") (gobinDir ++ "/t")
         = Ok (infoAt "t" "v1.1.0-rc.1" "go1.21.0")
      /\ installer_run (afterRun w false "go1.21.0") [Start; Finish 0] 4 false
         = Some (Some s2, None)
      /\ outcomes s2 = [(0, SkippedPinned)]
      /\ ~ In (0, AlreadyLatest) (outcomes s2))
  /\ (exists s1 s2,
         installer_run w' [Start; Finish 0] 4 true = Some (Some s1, None)
         /\ outcomes s1 = [(0, Upgraded)]
         /\ buildinfo_ReadFile (afterRun w' true "go1.21.0") (gobinDir ++ "/a")
            = Ok (infoAt "a" "v1.1.0" "go1.21.0")
         /\ installer_run (afterRun w' true "go1.21.0") [Start; Finish 0] 4 true
            = Some (Some s2, None)
         /\ outcomes s2 = [(0, Upgraded)]
         /\ ~ In (0, AlreadyLatest) (outcomes s2)).
Proof.
  cbv zeta. split.
  - eexists _, _. split; [reflexivity|]. split; [reflexivity|].
    split; [reflexivity|]. split; [reflexivity|]. split; [reflexivity|].
    intros [H|[]]. discriminate H.
  - eexists _, _. split; [reflexivity|]. split; [reflexivity|].
    split; [reflexivity|]. split; [reflexivity|]. split; [reflexivity|].
    intros [H|[]]. discriminate H.
Qed.

(** C9, amended: run the program twice, the install of the first run having
    put each upgraded program at its resolved target and the resolver giving
    the same answers.  A program that the first run upgraded to a resolved
    target is "already latest" in the second run, and is not installed
    again, provided that the target is not itself a pinned version and that,
    when [-go] is given, the [go] command builds with the running
    toolchain. *)
Theorem second_run_spec (w : World) (lg : bool) (toolchain : string)
        (sched1 sched2 : list Action) (n1 n2 : Z) (s1 s2 : Run)
        (r1 r2 : option error) (progs : list string)
        (gid : nat) (ff : string) (info : BuildInfo) (target : string) :
  installer_run w sched1 n1 lg = Some (Some s1, r1) ->
  installer_run (afterRun w lg toolchain) sched2 n2 lg = Some (Some s2, r2) ->
  listPrograms w (gobin w) = Ok progs -> NoDup progs ->
  In (gid, ff) (tasks progs) ->
  buildinfo_ReadFile w ff = Ok info ->
  resolution w gid info = Ok target ->
  In (gid, Upgraded) (outcomes s1) ->
  isSpecific target = false ->
  (lg = false \/ toolchain = runtime_Version w) ->
  buildinfo_ReadFile (afterRun w lg toolchain) ff
  = Ok (reinstalled info target toolchain)
  /\ In (gid, AlreadyLatest) (outcomes s2)
  /\ (forall d, In (gid, d) (outcomes s2) -> d = AlreadyLatest)
  /\ installs (fst (goFunc (afterRun w lg toolchain) lg gid ff)) = false.
Proof.
  intros Hrun1 Hrun2 Hl Hnd Ht Hread Hres Hup Hp Htool.
  destruct (reports_of_run _ _ _ _ _ _ _ Hrun1 Hl) as (_ & _ & _ & Hfun1).
  apply in_outcomes in Hup as (rep & Hrep & Hout).
  rewrite (Hfun1 (gid, ff) rep Ht Hrep) in Hout. cbn [fst snd] in Hout.
  assert (Hread2 : buildinfo_ReadFile (afterRun w lg toolchain) ff
                   = Ok (reinstalled info target toolchain)).
  { cbn [afterRun buildinfo_ReadFile]. rewrite Hread, Hl.
    assert (Hfind : find (fun t : Task => snd t =? ff) (tasks progs)
                    = Some (gid, ff)).
    { apply (find_task (tasks progs) (gid, ff)); [|exact Ht].
      now rewrite map_snd_tasks. }
    rewrite Hfind. cbn [fst snd]. now rewrite Hout, Hres. }
  assert (Hgo : goFunc (afterRun w lg toolchain) lg gid ff
                = ([listCommand (reinstalled info target toolchain);
                    alreadyLine (reinstalled info target toolchain)], None)).
  { rewrite (goFunc_resolved _ lg gid ff _ Hread2 target Hp);
      [|rewrite afterRun_resolution; exact Hres].
    assert (Hw : warranted (afterRun w lg toolchain) lg
                           (reinstalled info target toolchain) target = false).
    { apply warranted_false. split; [reflexivity|].
      destruct Htool as [->| ->]; [now left | now right]. }
    now rewrite Hw. }
  destruct (reports_of_run _ _ _ _ _ _ _ Hrun2 Hl) as (_ & _ & Hin2 & Hfun2).
  split; [exact Hread2|]. split; [|split].
  - apply in_outcomes. eexists. split; [apply (Hin2 (gid, ff) Ht)|].
    cbn [fst snd]. now rewrite Hgo.
  - intros d Hd. apply in_outcomes in Hd as (rep2 & Hrep2 & Ho2).
    rewrite (Hfun2 (gid, ff) rep2 Ht Hrep2) in Ho2. cbn [fst snd] in Ho2.
    rewrite Hgo in Ho2. cbn in Ho2. congruence.
  - now rewrite Hgo.
Qed.

Lemma second_run_spec_witness :
  exists s2,
    installer_run (afterRun (worldOf [behind "a"] "go1.21.0" 4) true "go1.21.0")
                  [Start; Finish 0] 4 true = Some (Some s2, None)
    /\ In (0, AlreadyLatest) (outcomes s2).
Proof.
  eexists. split; [reflexivity|].
  refine (proj1 (proj2 (second_run_spec
                          (worldOf [behind "a"] "go1.21.0" 4) true "go1.21.0"
                          [Start; Finish 0] [Start; Finish 0] 4 4 _ _ None None
                          [gobinDir ++ "/a"] 0 (gobinDir ++ "/a")
                          (infoAt "a" "v1.0.0" "go1.21.0") "v1.1.0"
                          eq_refl eq_refl eq_refl _ _ eq_refl eq_refl _ eq_refl _))).
  - repeat constructor. intros [].
  - left. reflexivity.
  - left. reflexivity.
  - right. reflexivity.
Defined.

(** * More of the program *)

(** ** Discovery *)

Lemma land_73_bits (m : Z) :
  Z.land m 73
  = (Z.b2z (Z.testbit m 0) + 8 * Z.b2z (Z.testbit m 3)
     + 64 * Z.b2z (Z.testbit m 6))%Z.
Proof.
  apply Z.bits_inj'. intros n Hn. rewrite Z.land_spec.
  assert (Hcases : (n = 0 \/ n = 1 \/ n = 2 \/ n = 3 \/ n = 4 \/ n = 5
                    \/ n = 6 \/ 7 <= n)%Z) by lia.
  destruct (Z.testbit m 0) eqn:B0, (Z.testbit m 3) eqn:B3,
           (Z.testbit m 6) eqn:B6; cbn [Z.b2z];
    (destruct Hcases as [->|[->|[->|[->|[->|[->|[->|Hbig]]]]]]];
     [rewrite ?B0, ?B3, ?B6; cbn; rewrite ?andb_false_r; reflexivity ..
     | rewrite (Z.bits_above_log2 73 n) by (cbn; lia);
       rewrite andb_false_r; symmetry;
       first [apply Z.bits_0
             | apply Z.bits_above_log2; cbn; lia]]).
Qed.

(** X1: a directory entry counts as executable exactly when one of the three
    execute bits of its mode (others, group, owner) is set; the type bits of
    the mode and the other permission bits play no part, so that a
    directory one can enter counts as well. *)
Theorem isExecutable_bits (fi : FileInfo) :
  isExecutable fi
  = Z.testbit (Mode fi) 0 || Z.testbit (Mode fi) 3 || Z.testbit (Mode fi) 6.
Proof.
  unfold isExecutable.
  rewrite <- Z.land_assoc. change (Z.land 511 73) with 73%Z.
  rewrite land_73_bits.
  destruct (Z.testbit (Mode fi) 0), (Z.testbit (Mode fi) 3),
           (Z.testbit (Mode fi) 6); reflexivity.
Qed.

Lemma listPrograms_loop (w : World) (dir : string) (files : list FileInfo) :
  forall acc,
    fold_left (fun programs fi =>
                 if isExecutable fi
                 then (programs ++ [filepath_Join w [dir; Name fi]])%list
                 else programs) files acc
    = (acc ++ map (fun fi => filepath_Join w [dir; Name fi])
                  (filter isExecutable files))%list.
Proof.
  induction files as [|fi files IH]; intros acc; cbn [fold_left filter].
  - now rewrite app_nil_r.
  - rewrite IH. destruct (isExecutable fi); [|reflexivity].
    cbn [map]. now rewrite <- app_assoc.
Qed.

(** X2: [listPrograms] returns the error of [ioutil.ReadDir] as it is;
    otherwise it returns the paths, joined to the directory, of the entries
    that are executable, in the order of the directory and with nothing
    else; in particular it lists no more paths than there are entries. *)
Theorem listPrograms_spec (w : World) (dir : string) :
  listPrograms w dir
  = match ioutil_ReadDir w dir with
    | Err err => Err err
    | Ok files =>
        Ok (map (fun fi => filepath_Join w [dir; Name fi])
                (filter isExecutable files))
    end
  /\ forall files progs,
      ioutil_ReadDir w dir = Ok files -> listPrograms w dir = Ok progs ->
      List.length progs <= List.length files.
Proof.
  unfold listPrograms. destruct (ioutil_ReadDir w dir) as [files|e].
  - rewrite listPrograms_loop. cbn [app]. split; [reflexivity|].
    intros files' progs [= <-] [= <-]. rewrite length_map.
    apply filter_length_le.
  - split; [reflexivity | discriminate].
Qed.

(** X3: when the directory cannot be found or cannot be read, [installer]
    returns before the loop: with GOBIN and HOME both unset it returns the
    error "GOBIN not found", and when [ioutil.ReadDir] fails it returns that
    error.  It does so under every schedule and with every limit (zero
    included): no task is started and nothing is printed or run. *)
Theorem installer_discovery_errors (w : World) (sched : list Action) (n : Z)
        (lg : bool) :
  (os_Getenv w "GOBIN" = EmptyString -> os_Getenv w "HOME" = EmptyString ->
   installer w sched n lg = Some ([], Some (errorString "GOBIN not found")))
  /\ (forall e,
         gobin w <> EmptyString -> ioutil_ReadDir w (gobin w) = Err e ->
         installer w sched n lg = Some ([], Some e)).
Proof.
  unfold installer, installer_run. split.
  - intros Hg Hh. unfold gobin. rewrite Hg, Hh. reflexivity.
  - intros e Hdir Hrd. apply String.eqb_neq in Hdir. rewrite Hdir.
    unfold listPrograms. rewrite Hrd. reflexivity.
Qed.

Lemma installer_discovery_errors_witness :
  installer (mkWorld (fun _ => EmptyString) (String.concat "/")
                     (fun _ => Ok []) (fun _ => Err context_Canceled)
                     (fun _ _ => (EmptyString, None)) (fun out => Ok out)
                     "go1.21.0" 4 None (Ok "/tmp/0") (fun _ => None))
            [Start; Finish 0] 0 true
  = Some ([], Some (errorString "GOBIN not found")).
Proof.
  refine (proj1 (installer_discovery_errors _ _ _ _) _ _); reflexivity.
Defined.

(** X4: when GOBIN holds no program, the run ends at once: [installer]
    returns nil without an event, whatever the limit is (zero as well, since
    [eg.Go] is never called), and the empty schedule is the only one. *)
Theorem installer_no_program (w : World) (n : Z) (lg : bool) :
  gobin w <> EmptyString -> listPrograms w (gobin w) = Ok [] ->
  installer w [] n lg = Some ([], None)
  /\ forall sched r, installer w sched n lg = Some r -> sched = [].
Proof.
  intros Hdir Hl. apply String.eqb_neq in Hdir.
  unfold installer, installer_run. rewrite Hdir, Hl. split.
  - cbn. unfold errgroup.SetLimit. destruct (n <? 0)%Z; reflexivity.
  - intros [|a sched] r; [reflexivity|]. cbn [run].
    destruct a as [|gid]; cbn; discriminate.
Qed.

Lemma installer_no_program_witness :
  installer (worldOf [] "go1.21.0" 4) [] 0 false = Some ([], None).
Proof.
  refine (proj1 (installer_no_program (worldOf [] "go1.21.0" 4) 0 false _ _));
    [discriminate | reflexivity].
Defined.

(** ** The resolver *)

(** X5: [latest] runs one command, [go list -m -json pkg@latest].  It
    returns a version exactly when the command succeeds and its output is
    decoded, and this version is the decoded one.  Its error is recognised
    as the cancellation exactly when the command itself failed with the
    cancellation: the error of the command is wrapped, the error of the
    decoder is not. *)
Theorem latest_spec (w : World) (gid : nat) (pkg : string) :
  let argv := ["go"; "list"; "-m"; "-json"; pkg ++ "@latest"] in
  fst (latest w gid pkg) = [Command argv]
  /\ (forall version,
         snd (latest w gid pkg) = Ok version
         <-> snd (CombinedOutput w gid argv) = None
             /\ json_Unmarshal w (fst (CombinedOutput w gid argv)) = Ok version)
  /\ ((exists err, snd (latest w gid pkg) = Err err
                   /\ errors_Is_Canceled err = true)
      <-> exists e, snd (CombinedOutput w gid argv) = Some e
                    /\ errors_Is_Canceled e = true).
Proof.
  cbv zeta. split; [apply latest_events|]. unfold latest.
  destruct (CombinedOutput w gid _) as [out [e|]]; cbn [fst snd].
  - split.
    + intros version. split; [discriminate | intros [H _]; discriminate].
    + split.
      * intros (err & [= <-] & Hc). exists e. split; [reflexivity|].
        now rewrite Errorf_list_canceled in Hc.
      * intros (e' & [= <-] & Hc). eexists. split; [reflexivity|].
        now rewrite Errorf_list_canceled.
  - destruct (json_Unmarshal w out) as [v|e]; cbn [fst snd].
    + split.
      * intros version. split; [intros [= <-]; auto | intros [_ [= <-]]; auto].
      * split; [intros (err & H & _); discriminate
               | intros (e' & H & _); discriminate].
    + split.
      * intros version. split; [discriminate | intros [_ H]; discriminate].
      * split; [intros (err & [= <-] & Hc); discriminate
               | intros (e' & H & _); discriminate].
Qed.

(** ** What a task runs and what it returns *)

Lemma commands_app (a b : list Event) :
  commands (a ++ b)%list = (commands a ++ commands b)%list.
Proof. apply filter_app. Qed.

(** X6: a task runs at most two commands, in this order: the resolution
    and then the install.  It runs none when the build information cannot
    be read or the program is pinned; otherwise it always resolves, at most
    once, and it never installs without having resolved first, nor more
    than once. *)
Theorem task_commands (w : World) (lg : bool) (gid : nat) (ff : string) :
  match buildinfo_ReadFile w ff with
  | Err _ => commands (fst (goFunc w lg gid ff)) = []
  | Ok info =>
      if isSpecific (module.Version (Main info))
      then commands (fst (goFunc w lg gid ff)) = []
      else commands (fst (goFunc w lg gid ff)) = [listCommand info]
           \/ commands (fst (goFunc w lg gid ff))
              = [listCommand info; installCommand info]
  end.
Proof.
  destruct (buildinfo_ReadFile w ff) as [info|e] eqn:Hread.
  - destruct (isSpecific (module.Version (Main info))) eqn:Hp.
    + now rewrite (goFunc_pinned w lg gid ff info Hread Hp).
    + destruct (resolution w gid info) as [target|e] eqn:Hres.
      * rewrite (goFunc_resolved w lg gid ff info Hread target Hp Hres).
        destruct (warranted w lg info target); [right | left]; reflexivity.
      * destruct (errors_Is_Canceled e) eqn:Hc.
        -- rewrite (goFunc_canceled w lg gid ff info Hread e Hp Hres Hc).
           now left.
        -- rewrite (goFunc_unresolved w lg gid ff info Hread e Hp Hres Hc).
           destruct (warranted w lg info "?"); [right | left]; reflexivity.
  - now rewrite (goFunc_read_error w lg gid ff e Hread).
Qed.

Lemma goFunc_error (w : World) (lg : bool) (gid : nat) (ff : string)
      (e : error) :
  snd (goFunc w lg gid ff) = Some e ->
  buildinfo_ReadFile w ff = Err e
  \/ exists info,
      buildinfo_ReadFile w ff = Ok info
      /\ isSpecific (module.Version (Main info)) = false
      /\ installResult w gid info = Some e
      /\ installs (fst (goFunc w lg gid ff)) = true
      /\ errors_Is_Canceled e = false.
Proof.
  assert (Hinst : forall info, installResult w gid info = Some e ->
                               errors_Is_Canceled e = false).
  { intros info. unfold installResult.
    destruct (CombinedOutput w gid _) as [out [e'|]]; [|discriminate].
    intros [= <-]. reflexivity. }
  destruct (buildinfo_ReadFile w ff) as [info|e'] eqn:Hread.
  - destruct (isSpecific (module.Version (Main info))) eqn:Hp.
    + rewrite (goFunc_pinned w lg gid ff info Hread Hp). discriminate.
    + destruct (resolution w gid info) as [target|e'] eqn:Hres.
      * rewrite (goFunc_resolved w lg gid ff info Hread target Hp Hres).
        destruct (warranted w lg info target); [|discriminate].
        cbn [fst snd]. intros H. right. exists info.
        repeat split; eauto.
      * destruct (errors_Is_Canceled e') eqn:Hc.
        -- rewrite (goFunc_canceled w lg gid ff info Hread e' Hp Hres Hc).
           discriminate.
        -- rewrite (goFunc_unresolved w lg gid ff info Hread e' Hp Hres Hc).
           destruct (warranted w lg info "?"); [|discriminate].
           cbn [fst snd]. intros H. right. exists info.
           repeat split; eauto.
  - rewrite (goFunc_read_error w lg gid ff e' Hread). intros [= <-]. now left.
Qed.

(** X7: a task returns an error in two cases only: the build information of
    its program cannot be read, and the error is that of
    [buildinfo.ReadFile]; or its install failed, and the error is the
    formatted error of the install, which is never recognised as the
    cancellation.  A resolution that fails never makes the task fail. *)
Theorem task_error_origin (w : World) (lg : bool) (gid : nat) (ff : string)
        (e : error) :
  snd (goFunc w lg gid ff) = Some e ->
  buildinfo_ReadFile w ff = Err e
  \/ exists info,
      buildinfo_ReadFile w ff = Ok info
      /\ isSpecific (module.Version (Main info)) = false
      /\ installResult w gid info = Some e
      /\ installs (fst (goFunc w lg gid ff)) = true
      /\ errors_Is_Canceled e = false.
Proof.
  assert (Hinst : forall info, installResult w gid info = Some e ->
                               errors_Is_Canceled e = false).
  { intros info. unfold installResult.
    destruct (CombinedOutput w gid _) as [out [e'|]]; [|discriminate].
    intros [= <-]. reflexivity. }
  destruct (buildinfo_ReadFile w ff) as [info|e'] eqn:Hread.
  - destruct (isSpecific (module.Version (Main info))) eqn:Hp.
    + rewrite (goFunc_pinned w lg gid ff info Hread Hp). discriminate.
    + destruct (resolution w gid info) as [target|e'] eqn:Hres.
      * rewrite (goFunc_resolved w lg gid ff info Hread target Hp Hres).
        destruct (warranted w lg info target); [|discriminate].
        cbn [fst snd]. intros H. right. exists info.
        repeat split; eauto.
      * destruct (errors_Is_Canceled e') eqn:Hc.
        -- rewrite (goFunc_canceled w lg gid ff info Hread e' Hp Hres Hc).
           discriminate.
        -- rewrite (goFunc_unresolved w lg gid ff info Hread e' Hp Hres Hc).
           destruct (warranted w lg info "?"); [|discriminate].
           cbn [fst snd]. intros H. right. exists info.
           repeat split; eauto.
  - rewrite (goFunc_read_error w lg gid ff e' Hread). intros [= <-]. now left.
Qed.

Lemma task_error_origin_witness :
  buildinfo_ReadFile (worldOf [broken "g"] "go1.21.0" 4) (gobinDir ++ "/g")
  = Err (Errorf "go install (%s):\n%s"
                [E_ (errorString "exit status 1"); S_ "build failed"])
  \/ exists info,
      buildinfo_ReadFile (worldOf [broken "g"] "go1.21.0" 4) (gobinDir ++ "/g")
      = Ok info
      /\ isSpecific (module.Version (Main info)) = false
      /\ installResult (worldOf [broken "g"] "go1.21.0" 4) 0 info
         = Some (Errorf "go install (%s):\n%s"
                        [E_ (errorString "exit status 1"); S_ "build failed"])
      /\ installs (fst (goFunc (worldOf [broken "g"] "go1.21.0" 4) false 0
                               (gobinDir ++ "/g"))) = true
      /\ errors_Is_Canceled
           (Errorf "go install (%s):\n%s"
                   [E_ (errorString "exit status 1"); S_ "build failed"])
         = false.
Proof.
  apply (task_error_origin (worldOf [broken "g"] "go1.21.0" 4) false 0
           (gobinDir ++ "/g")).
  reflexivity.
Defined.

(** ** The result of a run *)

Lemma first_error_in (l : list (option error)) (e : error) :
  first_error l = Some e -> In (Some e) l.
Proof.
  induction l as [|[x|] l IH]; cbn; [discriminate | | ].
  - intros [= ->]. now left.
  - intros H. right. now apply IH.
Qed.

Lemma first_error_none_iff (l : list (option error)) :
  first_error l = None <-> forall r, In r l -> r = None.
Proof.
  split; [|apply first_error_none].
  induction l as [|[x|] l IH]; cbn; [tauto | discriminate |].
  intros H r [<-|Hin]; [reflexivity | now apply IH].
Qed.

(** X8: the error that [installer] returns once the tasks are done is the
    error of one of them, and [installer] returns nil exactly when every
    task returned nil: no error is made up and none is lost, whatever the
    schedule. *)
Theorem installer_result_origin (w : World) (sched : list Action) (n : Z)
        (lg : bool) (s : Run) (r : option error) (progs : list string) :
  installer_run w sched n lg = Some (Some s, r) ->
  listPrograms w (gobin w) = Ok progs ->
  (r = None
   <-> forall t, In t (tasks progs) -> snd (goFunc w lg (fst t) (snd t)) = None)
  /\ (forall e, r = Some e ->
                exists t, In t (tasks progs)
                          /\ snd (goFunc w lg (fst t) (snd t)) = Some e).
Proof.
  intros Hrun Hl.
  destruct (installer_run_spec _ _ _ _ _ _ Hrun)
    as (progs' & Hl' & _ & _ & _ & HP & ->).
  rewrite Hl in Hl'. injection Hl' as <-. split.
  - rewrite first_error_none_iff. split.
    + intros H t Ht. apply (H (snd (goFunc w lg (fst t) (snd t)))).
      apply in_map_iff. exists (report_of w lg t). split; [reflexivity|].
      apply (Permutation_in _ (Permutation_sym HP)). now apply in_map.
    + intros H x Hx. apply in_map_iff in Hx as ([g rep] & <- & Hin).
      apply (Permutation_in _ HP) in Hin.
      apply in_map_iff in Hin as (t & [= <- <-] & Ht). now apply H.
  - intros e He. apply first_error_in in He.
    apply in_map_iff in He as ([g rep] & Hsnd & Hin).
    apply (Permutation_in _ HP) in Hin.
    apply in_map_iff in Hin as (t & [= <- <-] & Ht). eauto.
Qed.

Lemma installer_result_origin_witness :
  exists t,
    In t (tasks [gobinDir ++ "/a"; gobinDir ++ "/g"])
    /\ snd (goFunc (worldOf [behind "a"; broken "g"] "go1.21.0" 4) false
                   (fst t) (snd t))
       = Some (Errorf "go install (%s):\n%s"
                      [E_ (errorString "exit status 1"); S_ "build failed"]).
Proof.
  refine (proj2 (installer_result_origin
                   (worldOf [behind "a"; broken "g"] "go1.21.0" 4)
                   [Start; Start; Finish 1; Finish 0] 2 false _ _
                   [gobinDir ++ "/a"; gobinDir ++ "/g"] _ _) _ eq_refl);
    reflexivity.
Defined.

Lemma installer_run_state (w : World) (sched : list Action) (n : Z) (lg : bool)
      (progs : list string) (x : option Run) (r : option error) :
  gobin w <> EmptyString -> listPrograms w (gobin w) = Ok progs ->
  installer_run w sched n lg = Some (x, r) -> exists s, x = Some s.
Proof.
  intros Hdir Hl. apply String.eqb_neq in Hdir.
  unfold installer_run. rewrite Hdir, Hl.
  destruct (run w lg sched _) as [s|]; [|discriminate].
  destruct (pending s); [|discriminate].
  destruct (errgroup.Wait (group s)); [|discriminate].
  intros [= <- _]. eauto.
Qed.

(** X9: when the programs of GOBIN are listed and the build information of
    each of them can be read, a run that does not succeed is never silent:
    [main] exits with code 1 only after it has printed the error, which is
    the error of an install that failed.  The test on the cancellation in
    [main] is never true for such a run. *)
Theorem failed_run_is_reported (w : World) (sched : list Action) (fl : Flags)
        (dir : string) (progs : list string) (ev : list Event) (code : Z) :
  showVersion fl = false ->
  os_MkdirTemp w = Ok dir -> os_Chdir w dir = None ->
  gobin w <> EmptyString -> listPrograms w (gobin w) = Ok progs ->
  (forall f, In f progs -> exists info, buildinfo_ReadFile w f = Ok info) ->
  main w sched fl = Some (ev, code) ->
  exists s r,
    installer_run w sched (defaultProcs w (nProcs fl)) (latestGo fl)
    = Some (Some s, r)
    /\ ((r = None /\ code = 0%Z /\ ev = stdout s)
        \/ exists e t info,
            r = Some e /\ code = 1%Z
            /\ ev = (stdout s ++ [Printf "%s" [S_ (Error e)]])%list
            /\ In t (tasks progs)
            /\ buildinfo_ReadFile w (snd t) = Ok info
            /\ installResult w (fst t) info = Some e).
Proof.
  intros Hv Hd Hc Hdir Hl Hread.
  unfold main, runMain, installer. rewrite Hv, Hd, Hc.
  destruct (installer_run w sched (defaultProcs w (nProcs fl)) (latestGo fl))
    as [[x r]|] eqn:Hrun; [|discriminate].
  destruct (installer_run_state _ _ _ _ _ _ _ Hdir Hl Hrun) as [s ->].
  cbn [events_of]. intros [= <- <-]. exists s, r. split; [reflexivity|].
  destruct r as [e|]; [right | left].
  - destruct (installer_run_spec _ _ _ _ _ _ Hrun)
      as (progs' & Hl' & _ & _ & _ & HP & He).
    rewrite Hl in Hl'. injection Hl' as <-.
    symmetry in He. apply first_error_in in He.
    apply in_map_iff in He as ([g rep] & Hsnd & Hin).
    apply (Permutation_in _ HP) in Hin.
    apply in_map_iff in Hin as (t & [= <- <-] & Ht). cbn [snd] in Hsnd.
    destruct (goFunc_error _ _ _ _ _ Hsnd)
      as [Herr|(info & Hinfo & _ & Hinst & _ & Hnc)].
    + destruct (Hread (snd t)) as [info Hinfo]; [|congruence].
      apply (in_map snd) in Ht. now rewrite map_snd_tasks in Ht.
    + exists e, t, info. cbn [exit fst snd]. rewrite Hnc. cbn [negb].
      repeat split; auto.
  - cbn. rewrite app_nil_r. auto.
Qed.

Lemma failed_run_is_reported_witness :
  exists s r,
    installer_run (worldOf [cutInstalling "f"] "go1.21.0" 4) [Start; Finish 0]
                  (defaultProcs (worldOf [cutInstalling "f"] "go1.21.0" 4)
                                (nProcs (flags 0 false)))
                  (latestGo (flags 0 false))
    = Some (Some s, r)
    /\ ((r = None /\ 1%Z = 0%Z /\
         [listCommand (infoAt "f" "v1.0.0" "go1.21.0");
          arrowLine (infoAt "f" "v1.0.0" "go1.21.0") "v1.1.0";
          installCommand (infoAt "f" "v1.0.0" "go1.21.0");
          Printf "%s" [S_ ("go install (context canceled):" ++ nl)]]
         = stdout s)
        \/ exists e t info,
            r = Some e /\ 1%Z = 1%Z
            /\ [listCommand (infoAt "f" "v1.0.0" "go1.21.0");
                arrowLine (infoAt "f" "v1.0.0" "go1.21.0") "v1.1.0";
                installCommand (infoAt "f" "v1.0.0" "go1.21.0");
                Printf "%s" [S_ ("go install (context canceled):" ++ nl)]]
               = (stdout s ++ [Printf "%s" [S_ (Error e)]])%list
            /\ In t (tasks [gobinDir ++ "/f"])
            /\ buildinfo_ReadFile (worldOf [cutInstalling "f"] "go1.21.0" 4)
                                  (snd t) = Ok info
            /\ installResult (worldOf [cutInstalling "f"] "go1.21.0" 4)
                             (fst t) info = Some e).
Proof.
  apply (failed_run_is_reported (worldOf [cutInstalling "f"] "go1.21.0" 4)
           [Start; Finish 0] (flags 0 false) "/tmp/0" [gobinDir ++ "/f"]);
    try reflexivity; try discriminate.
  intros f [<-|[]]. eexists. reflexivity.
Defined.

(** ** One worker *)

Lemma run_one_at_a_time (w : World) (lg : bool) (ps : list Task) :
  forall (sched : list Action) (g : errgroup.Group)
         (reps : list (nat * Report)) (s' : Run),
    errgroup.sem g = Some 1%Z -> errgroup.wg g = 0 ->
    run w lg sched (mkRun g ps [] reps) = Some s' ->
    pending s' = [] -> errgroup.wg (group s') = 0 ->
    sched = sequential ps
    /\ reports s' = (reps ++ map (report_of w lg) ps)%list.
Proof.
  induction ps as [|t ps IH]; intros sched g reps s' Hsem Hwg Hrun Hp Hw.
  - destruct sched as [|[|gid] sched]; cbn in Hrun; try discriminate.
    injection Hrun as <-. cbn. now rewrite app_nil_r.
  - destruct sched as [|[|gid] sched].
    + cbn in Hrun. injection Hrun as <-. discriminate Hp.
    + cbn [run step pending group] in Hrun.
      unfold errgroup.Go, errgroup.ready in Hrun. rewrite Hsem, Hwg in Hrun.
      cbn [Z.of_nat Z.ltb Z.compare running reports] in Hrun.
      destruct sched as [|[|gid] sched].
      * cbn in Hrun. injection Hrun as <-. discriminate Hw.
      * cbn [run step pending group] in Hrun.
        destruct ps; [discriminate|].
        unfold errgroup.Go, errgroup.ready in Hrun. cbn in Hrun.
        rewrite ?Hsem in Hrun. discriminate.
      * cbn [run step running take] in Hrun.
        destruct (Nat.eqb (fst t) gid) eqn:Eg; [|discriminate].
        apply Nat.eqb_eq in Eg. subst gid.
        cbn [group pending reports] in Hrun.
        destruct (IH sched
                     (errgroup.done
                        (errgroup.mkGroup (Some 1%Z) 1 (errgroup.err g))
                        (snd (goFunc w lg (fst t) (snd t))))
                     (reps ++ [(fst t, goFunc w lg (fst t) (snd t))])%list
                     s' eq_refl eq_refl Hrun Hp Hw) as [-> Hreps].
        split; [reflexivity|]. rewrite Hreps, <- app_assoc. reflexivity.
    + cbn in Hrun. discriminate.
Qed.

(** X10: with one worker ([-j 1]) a run has one schedule only, the programs
    one after the other in the order of the directory: the reports and the
    output are in that order, and the error that [installer] returns is the
    error of the first program, in that order, whose task failed. *)
Theorem one_worker_in_order (w : World) (sched : list Action) (lg : bool)
        (s : Run) (r : option error) (progs : list string) :
  installer_run w sched 1 lg = Some (Some s, r) ->
  listPrograms w (gobin w) = Ok progs ->
  sched = sequential (tasks progs)
  /\ reports s = map (report_of w lg) (tasks progs)
  /\ stdout s
     = flat_map (fun t => fst (goFunc w lg (fst t) (snd t))) (tasks progs)
  /\ r = first_error
           (map (fun t => snd (goFunc w lg (fst t) (snd t))) (tasks progs)).
Proof.
  intros Hrun Hl.
  destruct (installer_run_spec _ _ _ _ _ _ Hrun)
    as (progs' & Hl' & Hr & Hp & Hrs & _ & ->).
  rewrite Hl in Hl'. injection Hl' as <-.
  pose proof (run_Inv w lg _ _ _ _ _ (start_Inv w lg 1 progs) Hr)
    as (_ & Hwg & _ & _ & _).
  rewrite Hrs in Hwg.
  destruct (run_one_at_a_time w lg (tasks progs) sched
              (errgroup.SetLimit errgroup.zero 1) [] s eq_refl eq_refl Hr Hp Hwg)
    as [-> Hreps].
  cbn [app] in Hreps. split; [reflexivity|]. split; [exact Hreps|].
  unfold stdout. rewrite Hreps, map_map. split; [|reflexivity].
  rewrite flat_map_concat_map, map_map, <- flat_map_concat_map. reflexivity.
Qed.

Lemma one_worker_in_order_witness :
  [Start; Finish 0; Start; Finish 1]
  = sequential (tasks [gobinDir ++ "/g"; gobinDir ++ "/a"]).
Proof.
  refine (proj1 (one_worker_in_order
                   (worldOf [broken "g"; behind "a"] "go1.21.0" 4)
                   [Start; Finish 0; Start; Finish 1] false _ _
                   [gobinDir ++ "/g"; gobinDir ++ "/a"] _ _));
    [|reflexivity].
  reflexivity.
Defined.

(** ** Blocking *)

(** X12: with at least one program in GOBIN, [installer] can return exactly
    when its limit is not zero.  With a limit of zero the first [eg.Go]
    blocks for ever, under every schedule; with any other limit, negative
    ones included, whatever has happened so far the run can be continued to
    its end. *)
Theorem installer_returns_iff (w : World) (n : Z) (lg : bool) (p : string)
        (progs : list string) :
  gobin w <> EmptyString -> listPrograms w (gobin w) = Ok (p :: progs) ->
  ((exists sched r, installer w sched n lg = Some r) <-> n <> 0%Z)
  /\ (n = 0%Z -> forall sched, installer w sched n lg = None)
  /\ (n <> 0%Z ->
      forall sched s,
        run w lg sched (start n (p :: progs)) = Some s ->
        exists sched' r, installer w (sched ++ sched') n lg = Some r).
Proof.
  intros Hdir Hl.
  assert (Hzero : n = 0%Z -> forall sched, installer w sched n lg = None).
  { intros -> sched. unfold installer.
    now rewrite (installer_run_limit_zero w sched lg p progs Hdir Hl). }
  assert (Hgo : n <> 0%Z ->
                forall sched s,
                  run w lg sched (start n (p :: progs)) = Some s ->
                  exists sched' r, installer w (sched ++ sched') n lg = Some r).
  { intros Hn sched s Hrun.
    destruct (installer_run_no_deadlock w sched n lg (p :: progs) s
                Hdir Hl Hn Hrun) as (sched' & s' & r & H).
    exists sched'. unfold installer. rewrite H. eauto. }
  split; [|split; [exact Hzero | exact Hgo]]. split.
  - intros (sched & r & H) ->. now rewrite (Hzero eq_refl sched) in H.
  - intros Hn. destruct (Hgo Hn [] _ eq_refl) as (sched' & r & H). eauto.
Qed.

Lemma installer_returns_iff_witness :
  exists sched r,
    installer (worldOf [behind "a"] "go1.21.0" 4) sched (-3) true = Some r.
Proof.
  refine (proj2 (proj1 (installer_returns_iff
                          (worldOf [behind "a"] "go1.21.0" 4)
                          (-3) true (gobinDir ++ "/a") [] _ _)) _);
    [discriminate | reflexivity | discriminate].
Defined.

(** X13: the program never blocks on its own limit: on a machine with at
    least one processing unit, whatever the flags are ([-j] zero, positive
    or negative) and whatever the collaborators answer, there is a schedule
    under which [main] returns. *)
Theorem main_can_return (w : World) (fl : Flags) :
  (0 < runtime_NumCPU w)%Z ->
  exists sched r, main w sched fl = Some r.
Proof.
  intros Hcpu. unfold main, runMain.
  destruct (showVersion fl).
  { exists []. destruct (debug_ReadBuildInfo w); eauto. }
  destruct (os_MkdirTemp w) as [dir|e]; [|exists []; eauto].
  destruct (os_Chdir w dir) as [e|]; [exists []; eauto|].
  assert (Hn : defaultProcs w (nProcs fl) <> 0%Z).
  { unfold defaultProcs. destruct (nProcs fl =? 0)%Z eqn:E; [lia|].
    now apply Z.eqb_neq in E. }
  unfold installer.
  destruct (gobin w =? EmptyString) eqn:Hdir.
  { exists []. unfold installer_run. rewrite Hdir. eauto. }
  destruct (listPrograms w (gobin w)) as [progs|e] eqn:Hl.
  - apply String.eqb_neq in Hdir.
    destruct (installer_run_sequential w _ (latestGo fl) progs Hdir Hl Hn)
      as (s & r & Hrun & _).
    exists (sequential (tasks progs)). rewrite Hrun. eauto.
  - exists []. unfold installer_run. rewrite Hdir, Hl. eauto.
Qed.

Lemma main_can_return_witness :
  exists sched r,
    main (worldOf [behind "a"; broken "g"] "go1.21.0" 4) sched (flags 0 true)
    = Some r.
Proof.
  apply (main_can_return (worldOf [behind "a"; broken "g"] "go1.21.0" 4)
           (flags 0 true)).
  reflexivity.
Defined.

(** ** The flag [-go] *)

(** X14: the flag [-go] only adds installs.  A task that installs without
    the flag does exactly the same with it; for a program built with the
    running toolchain the flag changes nothing; and when the flag changes
    what a task does, the program was built with another toolchain and was
    up to date: the task reports "already latest" without the flag and
    installs with it. *)
Theorem go_flag_only_adds (w : World) (gid : nat) (ff : string) :
  (installs (fst (goFunc w false gid ff)) = true ->
   goFunc w true gid ff = goFunc w false gid ff)
  /\ (forall info,
         buildinfo_ReadFile w ff = Ok info ->
         GoVersion info = runtime_Version w ->
         goFunc w true gid ff = goFunc w false gid ff)
  /\ (goFunc w true gid ff <> goFunc w false gid ff ->
      exists info,
        buildinfo_ReadFile w ff = Ok info
        /\ GoVersion info <> runtime_Version w
        /\ outcome (goFunc w false gid ff) = Some AlreadyLatest
        /\ installs (fst (goFunc w true gid ff)) = true).
Proof.
  destruct (buildinfo_ReadFile w ff) as [info|e] eqn:Hread.
  2:{ rewrite !(goFunc_read_error w _ gid ff e Hread).
      split; [reflexivity|]. split; [reflexivity|]. intros C. now elim C. }
  destruct (isSpecific (module.Version (Main info))) eqn:Hp.
  { rewrite !(goFunc_pinned w _ gid ff info Hread Hp).
    split; [reflexivity|]. split; [reflexivity|]. intros C. now elim C. }
  assert (Hcases :
            (exists e, resolution w gid info = Err e
                       /\ errors_Is_Canceled e = true)
            \/ exists A B target,
                installs B = false
                /\ forall lg, goFunc w lg gid ff
                              = if warranted w lg info target
                                then (A ++ [installCommand info],
                                      installResult w gid info)%list
                                else (B ++ [alreadyLine info], None)%list).
  { destruct (resolution w gid info) as [target|e] eqn:Hres.
    - right. exists [listCommand info; arrowLine info target],
                    [listCommand info], target.
      split; [reflexivity|]. intros lg.
      apply (goFunc_resolved w lg gid ff info Hread target Hp Hres).
    - destruct (errors_Is_Canceled e) eqn:Hc; [left; eauto|].
      right. exists [listCommand info; Printf "%s\n" [E_ e]; arrowLine info "?"],
                    [listCommand info; Printf "%s\n" [E_ e]], "?".
      split; [reflexivity|]. intros lg.
      apply (goFunc_unresolved w lg gid ff info Hread e Hp Hres Hc). }
  destruct Hcases as [(e & Hres & Hc)|(A & B & target & HB & Hgo)].
  { rewrite !(goFunc_canceled w _ gid ff info Hread e Hp Hres Hc).
    split; [reflexivity|]. split; [reflexivity|]. intros C. now elim C. }
  rewrite !Hgo. unfold warranted. cbn zeta. cbn [andb negb].
  assert (Hinst : installs (A ++ [installCommand info])%list = true).
  { unfold installs. rewrite existsb_app. cbn. apply orb_true_r. }
  assert (Halr : installs (B ++ [alreadyLine info])%list = false).
  { unfold installs in *. rewrite existsb_app, HB. reflexivity. }
  destruct (target =? module.Version (Main info)) eqn:Et; cbn [negb andb].
  - destruct (runtime_Version w =? GoVersion info) eqn:Eg; cbn [negb].
    + split; [reflexivity|]. split; [reflexivity|]. intros C. now elim C.
    + apply String.eqb_neq in Eg. split; [|split].
      * cbn [fst]. congruence.
      * intros info' [= <-] Hv. congruence.
      * intros _. exists info. split; [reflexivity|].
        split; [congruence|]. split; [|exact Hinst].
        unfold outcome. cbn [fst snd]. rewrite map_app. cbn [map].
        rewrite last_last. reflexivity.
  - rewrite andb_false_r. cbn [negb].
    split; [reflexivity|]. split; [reflexivity|]. intros C. now elim C.
Qed.

Lemma go_flag_only_adds_witness :
  exists info,
    buildinfo_ReadFile (worldOf [upToDate "b"] "go1.22.0" 4) (gobinDir ++ "/b")
    = Ok info
    /\ GoVersion info <> runtime_Version (worldOf [upToDate "b"] "go1.22.0" 4)
    /\ outcome (goFunc (worldOf [upToDate "b"] "go1.22.0" 4) false 0
                       (gobinDir ++ "/b")) = Some AlreadyLatest
    /\ installs (fst (goFunc (worldOf [upToDate "b"] "go1.22.0" 4) true 0
                             (gobinDir ++ "/b"))) = true.
Proof.
  apply (go_flag_only_adds (worldOf [upToDate "b"] "go1.22.0" 4) 0
           (gobinDir ++ "/b")).
  discriminate.
Defined.

(** ** Releases *)

Lemma parseInt_numeral (t rest : string) :
  Grammar.numeral t -> startsDigit rest = false ->
  semver.parseInt (t ++ rest) = Some (t, rest).
Proof. intros Ht Hr. apply parseInt_iff. auto. Qed.

Lemma parseInt_numeral_end (t : string) :
  Grammar.numeral t -> semver.parseInt t = Some (t, EmptyString).
Proof.
  intros Ht. apply parseInt_iff. repeat split; try apply Ht.
  now rewrite append_empty.
Qed.

(** X15: a release is never pinned.  The version "v" and three numerals
    separated by dots, followed or not by build metadata (such as
    "+incompatible"), is valid and has no pre-release; so are the short
    forms "v" and one or two numerals, without metadata.  A short form
    followed by build metadata is not a valid version.  [isSpecific] is
    false on all of them, and the program is looked up. *)
Theorem release_is_not_pinned (ma mi pa bld : string) :
  Grammar.numeral ma -> Grammar.numeral mi -> Grammar.numeral pa ->
  (bld = EmptyString \/ exists b, bld = "+" ++ b /\ Grammar.dotted Grammar.ident b) ->
  (semver.IsValid ("v" ++ ma ++ "." ++ mi ++ "." ++ pa ++ bld) = true
   /\ semver.Prerelease ("v" ++ ma ++ "." ++ mi ++ "." ++ pa ++ bld)
      = EmptyString
   /\ isSpecific ("v" ++ ma ++ "." ++ mi ++ "." ++ pa ++ bld) = false)
  /\ (semver.IsValid ("v" ++ ma ++ "." ++ mi) = true
      /\ isSpecific ("v" ++ ma ++ "." ++ mi) = false)
  /\ (semver.IsValid ("v" ++ ma) = true /\ isSpecific ("v" ++ ma) = false)
  /\ (forall b,
         semver.IsValid ("v" ++ ma ++ "." ++ mi ++ "+" ++ b) = false
         /\ isSpecific ("v" ++ ma ++ "." ++ mi ++ "+" ++ b) = false
         /\ semver.IsValid ("v" ++ ma ++ "+" ++ b) = false
         /\ isSpecific ("v" ++ ma ++ "+" ++ b) = false).
Proof.
  intros Hma Hmi Hpa Hbld.
  assert (P3 : exists pv,
             semver.parse ("v" ++ ma ++ "." ++ mi ++ "." ++ pa ++ bld) = Some pv
             /\ semver.prerelease pv = EmptyString).
  { unfold semver.parse. cbn [append]. change ("v" =? "v")%char with true.
    cbn [negb]. rewrite (parseInt_numeral ma _ Hma) by reflexivity.
    change ("." =? ".")%char with true. cbn [negb].
    rewrite (parseInt_numeral mi _ Hmi) by reflexivity.
    change ("." =? ".")%char with true. cbn [negb].
    destruct Hbld as [->|(b & -> & Hb)].
    - rewrite append_empty, (parseInt_numeral_end pa Hpa). cbn. eauto.
    - rewrite (parseInt_numeral pa _ Hpa) by reflexivity.
      cbn [append semver.startsWith semver.parseBuild].
      change ("+" =? "-")%char with false. cbv iota.
      cbn [semver.startsWith semver.parseBuild].
      change ("+" =? "+")%char with true.
      cbn [negb]. rewrite (buildLoop_intro b Hb "+"). eauto. }
  assert (P2 : exists pv,
             semver.parse ("v" ++ ma ++ "." ++ mi) = Some pv
             /\ semver.prerelease pv = EmptyString).
  { unfold semver.parse. cbn [append]. change ("v" =? "v")%char with true.
    cbn [negb]. rewrite (parseInt_numeral ma _ Hma) by reflexivity.
    change ("." =? ".")%char with true. cbn [negb].
    rewrite (parseInt_numeral_end mi Hmi). eauto. }
  assert (P1 : exists pv,
             semver.parse ("v" ++ ma) = Some pv
             /\ semver.prerelease pv = EmptyString).
  { unfold semver.parse. cbn [append]. change ("v" =? "v")%char with true.
    cbn [negb]. rewrite (parseInt_numeral_end ma Hma). eauto. }
  assert (N2 : forall b, semver.parse ("v" ++ ma ++ "." ++ mi ++ "+" ++ b) = None).
  { intros b. unfold semver.parse. cbn [append].
    change ("v" =? "v")%char with true.
    cbn [negb]. rewrite (parseInt_numeral ma _ Hma) by reflexivity.
    change ("." =? ".")%char with true. cbn [negb].
    rewrite (parseInt_numeral mi _ Hmi) by reflexivity. reflexivity. }
  assert (N1 : forall b, semver.parse ("v" ++ ma ++ "+" ++ b) = None).
  { intros b. unfold semver.parse. cbn [append].
    change ("v" =? "v")%char with true.
    cbn [negb]. rewrite (parseInt_numeral ma _ Hma) by reflexivity.
    reflexivity. }
  assert (Hspec : forall rest pv,
             semver.parse (String "v" rest) = Some pv ->
             semver.prerelease pv = EmptyString ->
             semver.IsValid (String "v" rest) = true
             /\ semver.Prerelease (String "v" rest) = EmptyString
             /\ isSpecific (String "v" rest) = false).
  { intros rest pv Hparse Hpre.
    unfold isSpecific, semver.IsValid, semver.Prerelease. rewrite Hparse, Hpre.
    repeat split. }
  assert (Hnone : forall rest,
             semver.parse (String "v" rest) = None ->
             semver.IsValid (String "v" rest) = false
             /\ isSpecific (String "v" rest) = false).
  { intros rest Hparse.
    unfold isSpecific, semver.IsValid, semver.Prerelease. rewrite Hparse.
    split; reflexivity. }
  destruct P3 as (pv3 & H3 & E3), P2 as (pv2 & H2 & E2), P1 as (pv1 & H1 & E1).
  cbn [append] in *.
  destruct (Hspec _ _ H3 E3) as (? & ? & ?), (Hspec _ _ H2 E2) as (? & _ & ?),
           (Hspec _ _ H1 E1) as (? & _ & ?).
  split; [repeat split; assumption|]. split; [split; assumption|].
  split; [split; assumption|].
  intros b. destruct (Hnone _ (N2 b)), (Hnone _ (N1 b)). auto.
Qed.

Lemma release_is_not_pinned_witness :
  isSpecific "v2.0.1+incompatible" = false.
Proof.
  refine (proj2 (proj2 (proj1 (release_is_not_pinned "2" "0" "1" "+incompatible"
                                 _ _ _ _)))).
  - repeat split; [discriminate | intros s' H; discriminate H].
  - repeat split; [discriminate | intros s' [= <-]; reflexivity].
  - repeat split; [discriminate | intros s' H; discriminate H].
  - right. exists "incompatible". split; [reflexivity|].
    apply Grammar.dotted_one. split; [discriminate | reflexivity].
Defined.

(** ** The sequential revision *)

Section Rev1.

Variable w : World.

Let it (t : Task) : list Event * option error :=
  rev1.iteration w (fst t) (snd t).

Lemma rev1_loop_cons (t : Task) (ts : list Task) :
  rev1.loop w (t :: ts)
  = match snd (it t) with
    | Some err => (fst (it t), Some err)
    | None => ((fst (it t) ++ fst (rev1.loop w ts))%list, snd (rev1.loop w ts))
    end.
Proof.
  unfold it. cbn [rev1.loop].
  destruct (rev1.iteration w (fst t) (snd t)) as [ev [e|]]; [reflexivity|].
  cbn [fst snd]. destruct (rev1.loop w ts). reflexivity.
Qed.

Lemma rev1_loop_result (ts : list Task) :
  snd (rev1.loop w ts) = first_error (map (fun t => snd (it t)) ts).
Proof.
  induction ts as [|t ts IH]; [reflexivity|].
  rewrite rev1_loop_cons. cbn [map first_error].
  destruct (snd (it t)); [reflexivity | exact IH].
Qed.

Lemma rev1_loop_app (ts1 rest : list Task) :
  (forall x, In x ts1 -> snd (it x) = None) ->
  rev1.loop w (ts1 ++ rest)
  = ((flat_map (fun t => fst (it t)) ts1 ++ fst (rev1.loop w rest))%list,
     snd (rev1.loop w rest)).
Proof.
  induction ts1 as [|t ts1 IH]; intros Hnone.
  - cbn. now destruct (rev1.loop w rest).
  - cbn [app flat_map]. rewrite rev1_loop_cons.
    rewrite (Hnone t (or_introl eq_refl)).
    rewrite IH by (intros x Hx; apply Hnone; now right).
    cbn [fst snd]. now rewrite app_assoc.
Qed.

End Rev1.

(** X16: the sequential [installer] goes through the programs in the order
    of the directory and stops at the first iteration that returns an
    error: it returns that error, what it has printed and run is what the
    iterations up to that one print and run, and the programs after it are
    not touched.  When no iteration fails it goes through all of them and
    returns nil. *)
Theorem rev1_stops_at_first_error (w : World) (ts : list Task) :
  snd (rev1.loop w ts)
  = first_error (map (fun t => snd (rev1.iteration w (fst t) (snd t))) ts)
  /\ ((forall t, In t ts -> snd (rev1.iteration w (fst t) (snd t)) = None) ->
      rev1.loop w ts
      = (flat_map (fun t => fst (rev1.iteration w (fst t) (snd t))) ts, None))
  /\ (forall ts1 t ts2 e,
         ts = (ts1 ++ t :: ts2)%list ->
         (forall x, In x ts1 ->
                    snd (rev1.iteration w (fst x) (snd x)) = None) ->
         snd (rev1.iteration w (fst t) (snd t)) = Some e ->
         rev1.loop w ts
         = (flat_map (fun x => fst (rev1.iteration w (fst x) (snd x)))
                     (ts1 ++ [t]), Some e)).
Proof.
  split; [apply rev1_loop_result|]. split.
  - intros Hnone. rewrite <- (app_nil_r ts) at 1.
    rewrite rev1_loop_app by exact Hnone. cbn. now rewrite app_nil_r.
  - intros ts1 t ts2 e -> Hnone He.
    rewrite rev1_loop_app by exact Hnone. rewrite rev1_loop_cons, He.
    cbn [fst snd]. rewrite flat_map_app. cbn [flat_map].
    now rewrite app_nil_r.
Qed.

Lemma rev1_latest_agrees (w : World) (gid : nat) (pkg : string) :
  fst (rev1.latest w gid pkg) = fst (latest w gid pkg)
  /\ match snd (latest w gid pkg) with
     | Ok v => snd (rev1.latest w gid pkg) = Ok v
     | Err _ => exists e, snd (rev1.latest w gid pkg) = Err e
     end.
Proof.
  unfold rev1.latest, latest.
  destruct (CombinedOutput w gid _) as [out [e|]]; cbn; [eauto|].
  destruct (json_Unmarshal w out); cbn; eauto.
Qed.

Lemma rev1_iteration_cases (w : World) (gid : nat) (ff : string)
      (info : BuildInfo) :
  buildinfo_ReadFile w ff = Ok info ->
  isSpecific (module.Version (Main info)) = false ->
  exists pre target,
    commands pre = []
    /\ (match resolution w gid info with
        | Ok t => target = t /\ pre = []
        | Err _ => target = "?"
        end)
    /\ rev1.iteration w gid ff
       = if module.Version (Main info) =? target
         then ((listCommand info :: pre)%list, None)
         else ((listCommand info :: pre
                ++ [arrowLine info target; installCommand info])%list,
               installResult w gid info).
Proof.
  intros Hread Hp. unfold rev1.iteration. rewrite Hread. cbn zeta. rewrite Hp.
  destruct (rev1_latest_agrees w gid (module.Path (Main info))) as [Hf Hs].
  rewrite latest_events in Hf. unfold resolution.
  destruct (rev1.latest w gid (module.Path (Main info))) as [ev r].
  cbn [fst snd] in Hf, Hs. subst ev.
  destruct (snd (latest w gid (module.Path (Main info)))) as [t|e0].
  - subst r. exists [], t. split; [reflexivity|]. split; [auto|].
    destruct (module.Version (Main info) =? t); [reflexivity|].
    unfold installResult.
    destruct (CombinedOutput w gid _) as [out [e|]]; reflexivity.
  - destruct Hs as [e ->]. exists [Printf "%s\n" [E_ e]], "?".
    split; [reflexivity|]. split; [reflexivity|].
    destruct (module.Version (Main info) =? "?"); [reflexivity|].
    unfold installResult.
    destruct (CombinedOutput w gid _) as [out [e'|]]; reflexivity.
Qed.

Lemma rev1_iteration_agrees (w : World) (gid : nat) (ff : string) :
  (forall info, buildinfo_ReadFile w ff = Ok info -> ~ cut w gid info) ->
  snd (rev1.iteration w gid ff) = snd (goFunc w false gid ff)
  /\ commands (fst (rev1.iteration w gid ff))
     = commands (fst (goFunc w false gid ff)).
Proof.
  intros Hcut.
  destruct (buildinfo_ReadFile w ff) as [info|e] eqn:Hread.
  2:{ rewrite (goFunc_read_error w false gid ff e Hread).
      unfold rev1.iteration. rewrite Hread. auto. }
  specialize (Hcut info eq_refl).
  destruct (isSpecific (module.Version (Main info))) eqn:Hp.
  { rewrite (goFunc_pinned w false gid ff info Hread Hp).
    unfold rev1.iteration. rewrite Hread. cbn zeta. rewrite Hp. auto. }
  destruct (rev1_iteration_cases w gid ff info Hread Hp)
    as (pre & target & Hpre & Htarget & ->).
  assert (Hw : warranted w false info target
               = negb (module.Version (Main info) =? target)).
  { unfold warranted. cbn. rewrite negb_involutive.
    now rewrite String.eqb_sym. }
  assert (Hcmd : forall post,
             commands (listCommand info :: pre ++ post)%list
             = (listCommand info :: commands post)%list).
  { intros post. change (listCommand info :: pre ++ post)%list
      with ([listCommand info] ++ pre ++ post)%list.
    rewrite !commands_app, Hpre. reflexivity. }
  destruct (resolution w gid info) as [t|e] eqn:Hres.
  - destruct Htarget as [-> ->].
    rewrite (goFunc_resolved w false gid ff info Hread t Hp Hres), Hw.
    destruct (module.Version (Main info) =? t); cbn [negb]; auto.
  - subst target. destruct (errors_Is_Canceled e) eqn:Hc.
    + elim Hcut. split; [exact Hp | eauto].
    + rewrite (goFunc_unresolved w false gid ff info Hread e Hp Hres Hc), Hw.
      destruct (module.Version (Main info) =? "?"); cbn [negb fst snd].
      * split; [reflexivity|].
        rewrite <- (app_nil_r pre), Hcmd. reflexivity.
      * split; [reflexivity|]. rewrite Hcmd. reflexivity.
Qed.

(** X17: without the flag [-go], a task of the concurrent revision runs the
    same commands and returns the same error as the iteration of the
    sequential revision for the same program, unless its resolution is cut
    by the cancellation.  In that case the two differ: the task stops after
    the resolution and returns nil, while the sequential iteration takes "?"
    as the target and goes on to the install. *)
Theorem rev1_task_agrees (w : World) (gid : nat) (ff : string) :
  ((forall info, buildinfo_ReadFile w ff = Ok info -> ~ cut w gid info) ->
   snd (rev1.iteration w gid ff) = snd (goFunc w false gid ff)
   /\ commands (fst (rev1.iteration w gid ff))
      = commands (fst (goFunc w false gid ff)))
  /\ (forall info,
         buildinfo_ReadFile w ff = Ok info -> cut w gid info ->
         module.Version (Main info) <> "?" ->
         commands (fst (goFunc w false gid ff)) = [listCommand info]
         /\ snd (goFunc w false gid ff) = None
         /\ commands (fst (rev1.iteration w gid ff))
            = [listCommand info; installCommand info]
         /\ snd (rev1.iteration w gid ff) = installResult w gid info).
Proof.
  split; [apply rev1_iteration_agrees|].
  intros info Hread (Hp & e & Hres & Hc) Hv.
  rewrite (goFunc_canceled w false gid ff info Hread e Hp Hres Hc).
  split; [reflexivity|]. split; [reflexivity|].
  destruct (rev1_iteration_cases w gid ff info Hread Hp)
    as (pre & target & Hpre & Htarget & ->).
  rewrite Hres in Htarget. subst target.
  apply String.eqb_neq in Hv. rewrite Hv. cbn [fst snd]. split; [|reflexivity].
  change (listCommand info :: pre ++ [arrowLine info "?"; installCommand info])%list
    with ([listCommand info] ++ pre
          ++ [arrowLine info "?"; installCommand info])%list.
  rewrite !commands_app, Hpre. reflexivity.
Qed.

Lemma rev1_task_agrees_witness :
  commands (fst (rev1.iteration (worldOf [cutResolving "e"] "go1.21.0" 4) 0
                                (gobinDir ++ "/e")))
  = [listCommand (infoAt "e" "v1.0.0" "go1.21.0");
     installCommand (infoAt "e" "v1.0.0" "go1.21.0")].
Proof.
  refine (proj1 (proj2 (proj2 (proj2 (rev1_task_agrees
                                        (worldOf [cutResolving "e"] "go1.21.0" 4)
                                        0 (gobinDir ++ "/e"))
                                     (infoAt "e" "v1.0.0" "go1.21.0") _ _ _))));
    [reflexivity | | discriminate].
  split; [reflexivity|]. eexists. split; reflexivity.
Defined.

(** X18: with one worker and without the flag [-go], the concurrent
    [installer] returns what the sequential [installer] returns, the
    errors of the discovery and the first error of a task in the order of
    the directory alike, as long as no resolution is cut by the
    cancellation. *)
Theorem rev1_result_agrees (w : World) (sched : list Action)
        (ev : list Event) (r : option error) :
  (forall progs t info,
      listPrograms w (gobin w) = Ok progs -> In t (tasks progs) ->
      buildinfo_ReadFile w (snd t) = Ok info -> ~ cut w (fst t) info) ->
  installer w sched 1 false = Some (ev, r) ->
  snd (rev1.installer w) = r.
Proof.
  intros Hcut. unfold installer, rev1.installer.
  destruct (installer_run w sched 1 false) as [[x r']|] eqn:Hrun; [|discriminate].
  intros [= <- <-]. revert Hrun. unfold installer_run.
  destruct (gobin w =? EmptyString) eqn:Hdir; [now intros [= <- <-]|].
  destruct (listPrograms w (gobin w)) as [progs|e] eqn:Hl;
    [|now intros [= <- <-]].
  fold (start 1 progs).
  destruct (run w false sched (start 1 progs)) as [s|] eqn:Hr; [|discriminate].
  destruct (pending s) eqn:Hp; [|discriminate].
  unfold errgroup.Wait.
  destruct (errgroup.wg (group s)) eqn:Hwg; [|discriminate].
  intros [= <- <-].
  pose proof (run_Inv w false _ _ _ _ _ (start_Inv w false 1 progs) Hr)
    as (_ & _ & _ & _ & Herr).
  destruct (run_one_at_a_time w false (tasks progs) sched
              (errgroup.SetLimit errgroup.zero 1) [] s eq_refl eq_refl Hr Hp Hwg)
    as [_ Hreps].
  cbn [app] in Hreps. rewrite Herr, Hreps, map_map, rev1_loop_result.
  f_equal. apply map_ext_in. intros t Ht. cbn [report_of snd].
  apply rev1_iteration_agrees. intros info Hinfo.
  exact (Hcut progs t info eq_refl Ht Hinfo).
Qed.

Lemma rev1_result_agrees_witness :
  snd (rev1.installer (worldOf [behind "a"; broken "g"; unlisted "d"]
                               "go1.21.0" 4))
  = Some (Errorf "go install (%s):\n%s"
                 [E_ (errorString "exit status 1"); S_ "build failed"]).
Proof.
  refine (rev1_result_agrees
            (worldOf [behind "a"; broken "g"; unlisted "d"] "go1.21.0" 4)
            (sequential (tasks [gobinDir ++ "/a"; gobinDir ++ "/g";
                                gobinDir ++ "/d"]))
            _ _ _ eq_refl).
  intros progs t info [= <-] Ht Hinfo (_ & e & Hres & Hc).
  destruct Ht as [<-|[<-|[<-|[]]]]; cbn in Hinfo; injection Hinfo as <-;
    cbn in Hres; try discriminate Hres.
  injection Hres as <-. discriminate Hc.
Defined.
